(** * Acts: the straight-line stepper state and the Measurement class

A shallow embedding of
  - Core/src/Propagator/StraightLineStepper.cpp
  - Core/include/Acts/EventData/Measurement.hpp
together with the parts of the library they call.

C++ [double] is idealised as the real numbers [R]: every statement below
is about which value is stored where and about exact algebra, none is
about rounding.  Eigen's fixed-size vectors and matrices are lists of
coefficients (row-major for matrices); a coefficient read outside the
list yields 0. *)

From Stdlib Require Import Reals Lra Lia List ZArith Bool.
Import ListNotations.
Open Scope R_scope.

(* ================================================================== *)
(** ** Eigen: the few vector and matrix operations the code uses *)

Module Eigen.

Record Vector3D := mkVector3D { vx : R; vy : R; vz : R }.

Definition Vector := list R.
Definition Matrix := list (list R).

Definition coeff (v : Vector) (i : nat) : R := nth i v 0.

(** [v.segment<3>(i)] *)
Definition segment3 (v : Vector) (i : nat) : Vector3D :=
  mkVector3D (coeff v i) (coeff v (i + 1)) (coeff v (i + 2)).

Definition squaredNorm (v : Vector3D) : R :=
  vx v * vx v + vy v * vy v + vz v * vz v.

Definition norm (v : Vector3D) : R := sqrt (squaredNorm v).

(** [v.normalized()]: Eigen divides by the norm when the squared norm is
    positive and returns the vector itself otherwise. *)
Definition normalized (v : Vector3D) : Vector3D :=
  let z := squaredNorm v in
  if Rlt_dec 0 z
  then mkVector3D (vx v / sqrt z) (vy v / sqrt z) (vz v / sqrt z)
  else v.

Definition Zero (n : nat) : Vector := repeat 0 n.

Definition ZeroMatrix (rows cols : nat) : Matrix := repeat (Zero cols) rows.

Definition unit (n i : nat) : Vector :=
  map (fun j => if Nat.eqb i j then 1 else 0) (seq 0 n).

Definition Identity (n : nat) : Matrix :=
  map (fun i => unit n i) (seq 0 n).

Definition dot (a b : Vector) : R :=
  fold_right Rplus 0 (map (fun xy => fst xy * snd xy) (combine a b)).

Definition column (m : Matrix) (j : nat) : Vector :=
  map (fun row => coeff row j) m.

Definition cols (m : Matrix) : nat :=
  match m with [] => 0%nat | row :: _ => length row end.

Definition transpose (m : Matrix) : Matrix :=
  map (fun j => column m j) (seq 0 (cols m)).

(** [a * b] for matrices; the number of columns of the product is that
    of [b]. *)
Definition mul (a b : Matrix) : Matrix :=
  map (fun row => map (fun j => dot row (column b j)) (seq 0 (cols b))) a.

Definition entry (m : Matrix) (i j : nat) : R := coeff (nth i m []) j.

End Eigen.

Import Eigen.

(* ================================================================== *)
(** ** Definitions.hpp, ParameterDefinitions.hpp *)

(** [enum NavigationDirection : int { backward = -1, forward = 1 }] *)
Inductive NavigationDirection := backward | forward.

Definition navValue (d : NavigationDirection) : R :=
  match d with backward => -1 | forward => 1 end.

(** Modelled from the spec: the free-parameter indices of
    ParameterDefinitions.hpp, "an 8-component vector [position(3), time,
    direction(3), q/p]". *)
Definition eFreePos0 : nat := 0.
Definition eFreeTime : nat := 3.
Definition eFreeDir0 : nat := 4.
Definition eFreeQOverP : nat := 7.

(** Modelled from the spec: the bound-parameter indices of
    ParameterDefinitions.hpp, "2 local coordinates + direction angles + q/p
    + time". *)
Inductive BoundParametersIndices :=
  eLOC_0 | eLOC_1 | ePHI | eTHETA | eQOP | eT.

Definition boundIndex (i : BoundParametersIndices) : nat :=
  match i with
  | eLOC_0 => 0 | eLOC_1 => 1 | ePHI => 2
  | eTHETA => 3 | eQOP => 4 | eT => 5
  end%nat.

Definition FreeVector := Vector.          (* 8 coefficients *)
Definition BoundVector := Vector.         (* 6 coefficients *)
Definition FreeMatrix := Matrix.          (* 8 x 8 *)
Definition BoundMatrix := Matrix.         (* 6 x 6 *)
Definition BoundSymMatrix := Matrix.      (* 6 x 6 *)
Definition BoundToFreeMatrix := Matrix.   (* 8 x 6 *)
Definition FreeToBoundMatrix := Matrix.   (* 6 x 8 *)

(** [std::numeric_limits<double>::max()] = (2 - 2^-52) * 2^1023. *)
Definition double_max : R := IZR (2 ^ 1024 - 2 ^ 971).

(** The geometry context is an opaque token handed through unread. *)
Inductive GeometryContext := GeoCtx (token : nat).

(** Modelled from the spec: the Surface capability the core consumes
    (Surfaces/Surface.hpp is an external collaborator): the local-to-global
    map, the seed Jacobian [initJacobianToGlobal], which fills the matrix it
    is given by reference, and the projection of free-frame perturbations
    onto the surface's local frame.  A surface is an object with virtual
    methods: a record of its methods. *)
Record Surface := {
  localToGlobal : GeometryContext -> R * R -> Vector3D;
  initJacobianToGlobal :
    GeometryContext -> BoundToFreeMatrix -> Vector3D -> Vector3D ->
    BoundVector -> BoundToFreeMatrix;
  initJacobianToLocal :
    GeometryContext -> Vector3D -> Vector3D -> FreeToBoundMatrix
}.

(** Modelled from the spec: the track-parameter snapshots (EventData/
    TrackParameters.hpp).  A snapshot is immutable; it is represented by the
    free-frame vector it is built from, its covariance ("absent = uncertainty
    unknown, never implicitly zero") and, when bound, the surface it is
    anchored to. *)
Record BoundParameters := mkBoundParameters {
  bp_covariance : option BoundSymMatrix;
  bp_parameters : FreeVector;
  bp_referenceSurface : Surface
}.

Record CurvilinearParameters := mkCurvilinearParameters {
  cp_covariance : option BoundSymMatrix;
  cp_parameters : FreeVector
}.

(* ================================================================== *)
(** ** Propagator/ConstrainedStep.hpp *)

(** Modelled from the spec: the constrained step size (ConstrainedStep.hpp
    is not among the sources).  The spec: constraints are tracked in
    independent tiers, the effective step size is the tightest active bound,
    releasing one tier never discards the other, and a released tier holds
    the unconstrained bound.  The tiers are the accuracy-driven one, the
    geometry-driven one the unit test reads as [ConstrainedStep::actor],
    the aborter's and the user's, which holds the step size a step is built
    with.  The unit test fixes the behaviour on a state built with step
    size -123: after [setStepSize(1337)] the step size is 1337, after
    [releaseStepSize] it is -123 again and prints as it did at first. *)
Module ConstrainedStep.

Inductive Type_ := accuracy | actor | aborter | user.

Record t := mk {
  v_accuracy : R;
  v_actor : R;
  v_aborter : R;
  v_user : R;
  direction : NavigationDirection
}.

(** The bound of an unconstrained tier. *)
Definition unconstrained (d : NavigationDirection) : R :=
  double_max * navValue d.

(** [ConstrainedStep(value)]: the user tier holds the value, the sign of
    the value is the direction, every other tier is unconstrained. *)
Definition make (value : R) : t :=
  let d := if Rlt_dec 0 value then forward else backward in
  mk (unconstrained d) (unconstrained d) (unconstrained d) value d.

Definition tier (s : t) (ty : Type_) : R :=
  match ty with
  | accuracy => v_accuracy s
  | actor => v_actor s
  | aborter => v_aborter s
  | user => v_user s
  end.

Definition set (s : t) (ty : Type_) (x : R) : t :=
  match ty with
  | accuracy => mk x (v_actor s) (v_aborter s) (v_user s) (direction s)
  | actor => mk (v_accuracy s) x (v_aborter s) (v_user s) (direction s)
  | aborter => mk (v_accuracy s) (v_actor s) x (v_user s) (direction s)
  | user => mk (v_accuracy s) (v_actor s) (v_aborter s) x (direction s)
  end.

(** The conversion to [double]: the tightest bound, which is the smallest
    tier going forward and the largest going backward. *)
Definition value (s : t) : R :=
  match direction s with
  | forward =>
      Rmin (Rmin (v_accuracy s) (v_actor s)) (Rmin (v_aborter s) (v_user s))
  | backward =>
      Rmax (Rmax (v_accuracy s) (v_actor s)) (Rmax (v_aborter s) (v_user s))
  end.

Definition release (s : t) (ty : Type_) : t :=
  set s ty (unconstrained (direction s)).

End ConstrainedStep.

(* ================================================================== *)
(** ** Propagator/StraightLineStepper *)

Module StraightLineStepper.

(** Modelled from the spec: [StraightLineStepper::State]; the struct is
    declared in StraightLineStepper.hpp, its members are those the source
    and the unit test read and write. *)
Record State := mkState {
  geoContext : GeometryContext;
  cov : BoundSymMatrix;
  jacobian : BoundMatrix;
  jacTransport : FreeMatrix;
  derivative : FreeVector;
  jacToGlobal : BoundToFreeMatrix;
  covTransport : bool;
  pos : Vector3D;
  dir : Vector3D;
  p : R;
  q : R;
  t : R;
  navDir : NavigationDirection;
  pathAccumulated : R;
  stepSize : ConstrainedStep.t;
  previousStepSize : R;
  tolerance : R
}.

(** Assignments to one member. *)
Definition set_cov (s : State) (x : BoundSymMatrix) : State :=
  mkState (geoContext s) x (jacobian s) (jacTransport s) (derivative s)
    (jacToGlobal s) (covTransport s) (pos s) (dir s) (p s) (q s) (t s)
    (navDir s) (pathAccumulated s) (stepSize s) (previousStepSize s)
    (tolerance s).

Definition set_jacobian (s : State) (x : BoundMatrix) : State :=
  mkState (geoContext s) (cov s) x (jacTransport s) (derivative s)
    (jacToGlobal s) (covTransport s) (pos s) (dir s) (p s) (q s) (t s)
    (navDir s) (pathAccumulated s) (stepSize s) (previousStepSize s)
    (tolerance s).

Definition set_jacTransport (s : State) (x : FreeMatrix) : State :=
  mkState (geoContext s) (cov s) (jacobian s) x (derivative s)
    (jacToGlobal s) (covTransport s) (pos s) (dir s) (p s) (q s) (t s)
    (navDir s) (pathAccumulated s) (stepSize s) (previousStepSize s)
    (tolerance s).

Definition set_derivative (s : State) (x : FreeVector) : State :=
  mkState (geoContext s) (cov s) (jacobian s) (jacTransport s) x
    (jacToGlobal s) (covTransport s) (pos s) (dir s) (p s) (q s) (t s)
    (navDir s) (pathAccumulated s) (stepSize s) (previousStepSize s)
    (tolerance s).

Definition set_jacToGlobal (s : State) (x : BoundToFreeMatrix) : State :=
  mkState (geoContext s) (cov s) (jacobian s) (jacTransport s)
    (derivative s) x (covTransport s) (pos s) (dir s) (p s) (q s) (t s)
    (navDir s) (pathAccumulated s) (stepSize s) (previousStepSize s)
    (tolerance s).

Definition set_covTransport (s : State) (x : bool) : State :=
  mkState (geoContext s) (cov s) (jacobian s) (jacTransport s)
    (derivative s) (jacToGlobal s) x (pos s) (dir s) (p s) (q s) (t s)
    (navDir s) (pathAccumulated s) (stepSize s) (previousStepSize s)
    (tolerance s).

Definition set_pos (s : State) (x : Vector3D) : State :=
  mkState (geoContext s) (cov s) (jacobian s) (jacTransport s)
    (derivative s) (jacToGlobal s) (covTransport s) x (dir s) (p s) (q s)
    (t s) (navDir s) (pathAccumulated s) (stepSize s) (previousStepSize s)
    (tolerance s).

Definition set_dir (s : State) (x : Vector3D) : State :=
  mkState (geoContext s) (cov s) (jacobian s) (jacTransport s)
    (derivative s) (jacToGlobal s) (covTransport s) (pos s) x (p s) (q s)
    (t s) (navDir s) (pathAccumulated s) (stepSize s) (previousStepSize s)
    (tolerance s).

Definition set_p (s : State) (x : R) : State :=
  mkState (geoContext s) (cov s) (jacobian s) (jacTransport s)
    (derivative s) (jacToGlobal s) (covTransport s) (pos s) (dir s) x (q s)
    (t s) (navDir s) (pathAccumulated s) (stepSize s) (previousStepSize s)
    (tolerance s).

Definition set_t (s : State) (x : R) : State :=
  mkState (geoContext s) (cov s) (jacobian s) (jacTransport s)
    (derivative s) (jacToGlobal s) (covTransport s) (pos s) (dir s) (p s)
    (q s) x (navDir s) (pathAccumulated s) (stepSize s)
    (previousStepSize s) (tolerance s).

Definition set_navDir (s : State) (x : NavigationDirection) : State :=
  mkState (geoContext s) (cov s) (jacobian s) (jacTransport s)
    (derivative s) (jacToGlobal s) (covTransport s) (pos s) (dir s) (p s)
    (q s) (t s) x (pathAccumulated s) (stepSize s) (previousStepSize s)
    (tolerance s).

Definition set_pathAccumulated (s : State) (x : R) : State :=
  mkState (geoContext s) (cov s) (jacobian s) (jacTransport s)
    (derivative s) (jacToGlobal s) (covTransport s) (pos s) (dir s) (p s)
    (q s) (t s) (navDir s) x (stepSize s) (previousStepSize s)
    (tolerance s).

Definition set_stepSize (s : State) (x : ConstrainedStep.t) : State :=
  mkState (geoContext s) (cov s) (jacobian s) (jacTransport s)
    (derivative s) (jacToGlobal s) (covTransport s) (pos s) (dir s) (p s)
    (q s) (t s) (navDir s) (pathAccumulated s) x (previousStepSize s)
    (tolerance s).

Definition set_previousStepSize (s : State) (x : R) : State :=
  mkState (geoContext s) (cov s) (jacobian s) (jacTransport s)
    (derivative s) (jacToGlobal s) (covTransport s) (pos s) (dir s) (p s)
    (q s) (t s) (navDir s) (pathAccumulated s) (stepSize s) x
    (tolerance s).

(** The accessors of the header are plain reads. *)
Definition position (state : State) : Vector3D := pos state.
Definition direction (state : State) : Vector3D := dir state.
Definition momentum (state : State) : R := p state.
Definition charge (state : State) : R := q state.
Definition time (state : State) : R := t state.

(** The free vector both snapshot functions and the surface transport
    build: [pos, t, dir, q / p]. *)
Definition freeParameters (state : State) : FreeVector :=
  [vx (pos state); vy (pos state); vz (pos state); t state;
   vx (dir state); vy (dir state); vz (dir state); q state / p state].

(** [update(State&, const FreeVector&, const Covariance&)] *)
Definition update (state : State) (parameters : FreeVector)
    (covariance : BoundSymMatrix) : State :=
  let state := set_pos state (segment3 parameters eFreePos0) in
  let state := set_dir state (normalized (segment3 parameters eFreeDir0)) in
  let state := set_p state (Rabs (1 / coeff parameters eFreeQOverP)) in
  let state := set_t state (coeff parameters eFreeTime) in
  set_cov state covariance.

(** [update(State&, const Vector3D&, const Vector3D&, double, double)] *)
Definition update_components (state : State) (uposition udirection : Vector3D)
    (up time : R) : State :=
  let state := set_pos state uposition in
  let state := set_dir state udirection in
  let state := set_p state up in
  set_t state time.


(** Modelled from the spec: [setStepSize] and [releaseStepSize] of
    StraightLineStepper.hpp.  "The former records previousStepSize then
    overwrites the active step size; the latter relaxes the active step
    size to the unconstrained bound"; the tier both act on is the one the
    unit test reads, [ConstrainedStep::actor]. *)
Definition setStepSize (state : State) (stepSize' : R) : State :=
  let state :=
    set_previousStepSize state (ConstrainedStep.value (stepSize state)) in
  set_stepSize state
    (ConstrainedStep.set (stepSize state) ConstrainedStep.actor stepSize').

Definition releaseStepSize (state : State) : State :=
  set_stepSize state
    (ConstrainedStep.release (stepSize state) ConstrainedStep.actor).

(** Modelled from the spec: [detail::coordinate_transformation::
    boundParameters2freeParameters] (coordinate_transformations.hpp).
    "Maps the two surface-local coordinates through the surface's
    local-to-global map to a 3D position; maps the azimuth/polar angle
    pair to a unit direction; q/p and time pass through unchanged." *)
Definition boundParameters2freeParameters (gctx : GeometryContext)
    (boundParams : BoundVector) (surface : Surface) : FreeVector :=
  let global :=
    localToGlobal surface gctx
      (coeff boundParams (boundIndex eLOC_0),
       coeff boundParams (boundIndex eLOC_1)) in
  let phi := coeff boundParams (boundIndex ePHI) in
  let theta := coeff boundParams (boundIndex eTHETA) in
  [vx global; vy global; vz global;
   coeff boundParams (boundIndex eT);
   cos phi * sin theta; sin phi * sin theta; cos theta;
   coeff boundParams (boundIndex eQOP)].

(** [resetState(State&, const BoundVector&, const BoundSymMatrix&,
    const Surface&, const NavigationDirection, const double)] *)
Definition resetState (state : State) (boundParams : BoundVector)
    (cov' : BoundSymMatrix) (surface : Surface)
    (navDir' : NavigationDirection) (stepSize' : R) : State :=
  let state :=
    update state
      (boundParameters2freeParameters (geoContext state) boundParams surface)
      cov' in
  let state := set_navDir state navDir' in
  let state := set_stepSize state (ConstrainedStep.make stepSize') in
  let state := set_pathAccumulated state 0 in
  let state :=
    set_jacToGlobal state
      (initJacobianToGlobal surface (geoContext state) (jacToGlobal state)
         (position state) (direction state) boundParams) in
  let state := set_jacobian state (Identity 6) in
  let state := set_jacTransport state (Identity 8) in
  set_derivative state (Zero 8).

(** Modelled from the spec: the default arguments of the declaration,
    "resetState(state, bound parameters, covariance, surface, navDir =
    forward, stepSize = unconstrained)"; the unit test compares the
    unconstrained step with [std::numeric_limits<double>::max()]. *)
Definition resetState_navDir (state : State) (boundParams : BoundVector)
    (cov' : BoundSymMatrix) (surface : Surface)
    (navDir' : NavigationDirection) : State :=
  resetState state boundParams cov' surface navDir' double_max.

Definition resetState_default (state : State) (boundParams : BoundVector)
    (cov' : BoundSymMatrix) (surface : Surface) : State :=
  resetState state boundParams cov' surface forward double_max.

(** *** step *)

(** [struct PropState] of the unit test: the stepping state and the
    options, which carry the particle's mass. *)
Record PropState := mkPropState {
  stepping : State;
  options_mass : R
}.

Section Step.

(** The spec does not spell out how far the time advances along a step
    nor the transport matrix and the derivative of a step: the rate dt/ds,
    the step matrix and the derivative are taken as they come, as functions
    of the stepping state, the mass and the step. *)
Variable dtds : State -> R -> R.
Variable stepJacobian : State -> R -> R -> FreeMatrix.
Variable stepDerivative : State -> R -> FreeVector.

(** Modelled from the spec: [step] of StraightLineStepper.hpp.  "Moves
    position along direction by the current signed step size (for the
    reference straight-trajectory stepper this is exact constant-velocity
    motion); when covariance bookkeeping is active, accumulates the
    transport derivative and transport Jacobian"; it returns the advanced
    path length, which the unit test compares with the step size, and the
    straight step never fails.  Constant-velocity motion leaves the
    direction, the momentum and the charge as they are, as the unit test
    checks after each step; with bookkeeping inactive the derivative and the
    transport Jacobian are not touched. *)
Definition step (state : PropState) : R * PropState :=
  let s := stepping state in
  let h := ConstrainedStep.value (stepSize s) in
  let s1 :=
    set_pos s
      (mkVector3D (vx (pos s) + h * vx (dir s)) (vy (pos s) + h * vy (dir s))
         (vz (pos s) + h * vz (dir s))) in
  let s2 := set_t s1 (t s + h * dtds s (options_mass state)) in
  let s3 :=
    if covTransport s
    then
      set_derivative
        (set_jacTransport s2
           (mul (stepJacobian s (options_mass state) h) (jacTransport s)))
        (stepDerivative s (options_mass state))
    else s2 in
  let s4 := set_pathAccumulated s3 (pathAccumulated s + h) in
  (h, mkPropState s4 (options_mass state)).

End Step.

(** *** The calls into the covariance engine *)

(** The five members the source hands to [detail::boundState],
    [detail::curvilinearState] and [detail::covarianceTransport]:
    [state.cov, state.jacobian, state.jacTransport, state.derivative,
    state.jacToGlobal].  [State&] is not const, so the callee may write
    through them; a call yields their values on return. *)
Record Transport := mkTransport {
  e_cov : BoundSymMatrix;
  e_jacobian : BoundMatrix;
  e_jacTransport : FreeMatrix;
  e_derivative : FreeVector;
  e_jacToGlobal : BoundToFreeMatrix
}.

Definition writeBack (state : State) (r : Transport) : State :=
  let state := set_cov state (e_cov r) in
  let state := set_jacobian state (e_jacobian r) in
  let state := set_jacTransport state (e_jacTransport r) in
  let state := set_derivative state (e_derivative r) in
  set_jacToGlobal state (e_jacToGlobal r).

Section Engine.

(** Propagator/detail/CovarianceEngine.hpp is not among the sources:
    the four functions the stepper calls are taken as they are called,
    arguments in the order of the call. *)
Variable detail_boundState :
  GeometryContext -> BoundSymMatrix -> BoundMatrix -> FreeMatrix ->
  FreeVector -> BoundToFreeMatrix -> FreeVector -> bool -> R -> Surface ->
  (BoundParameters * BoundMatrix * R) * Transport.

Variable detail_curvilinearState :
  BoundSymMatrix -> BoundMatrix -> FreeMatrix -> FreeVector ->
  BoundToFreeMatrix -> FreeVector -> bool -> R ->
  (CurvilinearParameters * BoundMatrix * R) * Transport.

Variable detail_covarianceTransport :
  BoundSymMatrix -> BoundMatrix -> FreeMatrix -> FreeVector ->
  BoundToFreeMatrix -> Vector3D -> Transport.

Variable detail_covarianceTransport_surface :
  GeometryContext -> BoundSymMatrix -> BoundMatrix -> FreeMatrix ->
  FreeVector -> BoundToFreeMatrix -> FreeVector -> Surface -> Transport.

(** [boundState(State&, const Surface&)] *)
Definition boundState (state : State) (surface : Surface)
  : (BoundParameters * BoundMatrix * R) * State :=
  let parameters := freeParameters state in
  let (result, refs) :=
    detail_boundState (geoContext state) (cov state) (jacobian state)
      (jacTransport state) (derivative state) (jacToGlobal state)
      parameters (covTransport state) (pathAccumulated state) surface in
  (result, writeBack state refs).

(** [curvilinearState(State&)] *)
Definition curvilinearState (state : State)
  : (CurvilinearParameters * BoundMatrix * R) * State :=
  let parameters := freeParameters state in
  let (result, refs) :=
    detail_curvilinearState (cov state) (jacobian state)
      (jacTransport state) (derivative state) (jacToGlobal state)
      parameters (covTransport state) (pathAccumulated state) in
  (result, writeBack state refs).

(** [covarianceTransport(State&)] *)
Definition covarianceTransport (state : State) : State :=
  writeBack state
    (detail_covarianceTransport (cov state) (jacobian state)
       (jacTransport state) (derivative state) (jacToGlobal state)
       (dir state)).

(** [covarianceTransport(State&, const Surface&)] *)
Definition covarianceTransport_surface (state : State) (surface : Surface)
  : State :=
  let parameters := freeParameters state in
  writeBack state
    (detail_covarianceTransport_surface (geoContext state) (cov state)
       (jacobian state) (jacTransport state) (derivative state)
       (jacToGlobal state) parameters surface).

End Engine.

End StraightLineStepper.

(* ================================================================== *)
(** ** Propagator/detail/CovarianceEngine *)

Module CovarianceEngine.

Import StraightLineStepper.

Section Frames.

(** The maps of the target frames are not described by the spec beyond
    their existence: the inverse of the bound-to-free transform at a
    surface, and the two Jacobians of the curvilinear frame, which the
    source derives from the direction alone. *)
Variable freeToBound : GeometryContext -> FreeVector -> Surface -> BoundVector.
Variable curvilinearToLocal : Vector3D -> FreeToBoundMatrix.
Variable curvilinearToGlobal : Vector3D -> BoundToFreeMatrix.

(** Modelled from the spec: the full Jacobian of a transport, "the
    product of these three": (c) the projection onto the target frame,
    (b) the transport Jacobian, (a) the seed Jacobian. *)
Definition fullJacobian (toLocal : FreeToBoundMatrix)
    (jacTransport : FreeMatrix) (jacToGlobal : BoundToFreeMatrix)
  : BoundMatrix :=
  mul toLocal (mul jacTransport jacToGlobal).

(** Modelled from the spec: "the propagated covariance is
    J * covariance * J^t". *)
Definition chainRule (J : BoundMatrix) (covariance : BoundSymMatrix)
  : BoundSymMatrix :=
  mul (mul J covariance) (transpose J).

(** Modelled from the spec: [detail::covarianceTransport] without a
    surface.  "Applies the chain rule to the stored covariance using the
    composition seed-Jacobian * transport-Jacobian, re-anchoring to the
    curvilinear frame; after applying, resets transport Jacobian to
    Identity and derivative to 0"; the bound Jacobian accumulates "since
    last reset" and the seed is re-derived in the new frame.  The flag of
    the state is not among the arguments of the call. *)
Definition covarianceTransport (covariance : BoundSymMatrix)
    (jacobian : BoundMatrix) (jacTransport : FreeMatrix)
    (derivative : FreeVector) (jacToGlobal : BoundToFreeMatrix)
    (direction : Vector3D) : Transport :=
  let J :=
    fullJacobian (curvilinearToLocal direction) jacTransport jacToGlobal in
  mkTransport (chainRule J covariance) (mul J jacobian) (Identity 8)
    (Zero 8) (curvilinearToGlobal direction).

(** Modelled from the spec: [detail::covarianceTransport] to a
    surface. *)
Definition covarianceTransport_surface (gctx : GeometryContext)
    (covariance : BoundSymMatrix) (jacobian : BoundMatrix)
    (jacTransport : FreeMatrix) (derivative : FreeVector)
    (jacToGlobal : BoundToFreeMatrix) (parameters : FreeVector)
    (surface : Surface) : Transport :=
  let position := segment3 parameters eFreePos0 in
  let direction := segment3 parameters eFreeDir0 in
  let J :=
    fullJacobian (initJacobianToLocal surface gctx position direction)
      jacTransport jacToGlobal in
  mkTransport (chainRule J covariance) (mul J jacobian) (Identity 8)
    (Zero 8)
    (initJacobianToGlobal surface gctx (ZeroMatrix 8 6) position direction
       (freeToBound gctx parameters surface)).

(** Modelled from the spec: [detail::boundState].  "Projects accumulated
    free-frame transport onto surface's local frame" and returns "(bound
    parameters, bound-to-bound Jacobian since last reset, path
    length)"; "snapshot emitted, state unchanged"; "when covariance
    bookkeeping is inactive, this entire computation is skipped and the
    result carries no covariance". *)
Definition boundState (gctx : GeometryContext)
    (covariance : BoundSymMatrix) (jacobian : BoundMatrix)
    (jacTransport : FreeMatrix) (derivative : FreeVector)
    (jacToGlobal : BoundToFreeMatrix) (parameters : FreeVector)
    (covTransport : bool) (accumulatedPath : R) (surface : Surface)
  : (BoundParameters * BoundMatrix * R) * Transport :=
  let position := segment3 parameters eFreePos0 in
  let direction := segment3 parameters eFreeDir0 in
  let J :=
    fullJacobian (initJacobianToLocal surface gctx position direction)
      jacTransport jacToGlobal in
  let unchanged :=
    mkTransport covariance jacobian jacTransport derivative jacToGlobal in
  if covTransport
  then ((mkBoundParameters (Some (chainRule J covariance)) parameters
           surface, mul J jacobian, accumulatedPath), unchanged)
  else ((mkBoundParameters None parameters surface, jacobian,
         accumulatedPath), unchanged).

(** Modelled from the spec: [detail::curvilinearState], "same, but
    anchored to an implicit frame centered at the current position with
    axes derived from the direction". *)
Definition curvilinearState (covariance : BoundSymMatrix)
    (jacobian : BoundMatrix) (jacTransport : FreeMatrix)
    (derivative : FreeVector) (jacToGlobal : BoundToFreeMatrix)
    (parameters : FreeVector) (covTransport : bool)
    (accumulatedPath : R)
  : (CurvilinearParameters * BoundMatrix * R) * Transport :=
  let direction := segment3 parameters eFreeDir0 in
  let J :=
    fullJacobian (curvilinearToLocal direction) jacTransport jacToGlobal in
  let unchanged :=
    mkTransport covariance jacobian jacTransport derivative jacToGlobal in
  if covTransport
  then ((mkCurvilinearParameters (Some (chainRule J covariance))
           parameters, mul J jacobian, accumulatedPath), unchanged)
  else ((mkCurvilinearParameters None parameters, jacobian,
         accumulatedPath), unchanged).

End Frames.

End CovarianceEngine.

(* ================================================================== *)
(** ** EventData/ParameterSet.hpp *)

(** Modelled from the spec: [ParameterSet<params...>] (ParameterSet.hpp is
    not among the sources): "an ordered, duplicate-free, compile-time-fixed
    subset of a larger parameter space; holds a value vector, an optional
    covariance"; "equality is exact value comparison"; "residual(other):
    elementwise difference with angular wraparound: cyclic components (e.g.
    azimuth) are corrected into the half-open interval (-pi, pi]". *)
Module ParameterSet.

Record t (params : list BoundParametersIndices) := mk {
  values : Vector;
  covariance : option Matrix
}.
Arguments mk {params} _ _.
Arguments values {params} _.
Arguments covariance {params} _.

Definition index_eqb (a b : BoundParametersIndices) : bool :=
  Nat.eqb (boundIndex a) (boundIndex b).

(** The position of a parameter in the pack. *)
Fixpoint slot (params : list BoundParametersIndices)
    (par : BoundParametersIndices) : nat :=
  match params with
  | [] => 0%nat
  | x :: rest => if index_eqb x par then 0%nat else S (slot rest par)
  end.

Definition getParameter {params} (s : t params)
    (par : BoundParametersIndices) : R :=
  coeff (values s) (slot params par).

Definition is_cyclic (par : BoundParametersIndices) : bool :=
  match par with ePHI => true | _ => false end.

(** The representative of [d] modulo 2 pi in (-pi, pi]. *)
Definition wrap (d : R) : R :=
  d + 2 * PI * IZR (Int_part ((PI - d) / (2 * PI))).

Definition difference (par : BoundParametersIndices) (a b : R) : R :=
  if is_cyclic par then wrap (a - b) else a - b.

Definition residual {params params'} (s : t params) (other : t params')
  : Vector :=
  map (fun par => difference par (getParameter s par) (getParameter other par))
    params.

Definition R_eqb (a b : R) : bool :=
  if Req_dec_T a b then true else false.

Fixpoint Vector_eqb (a b : Vector) : bool :=
  match a, b with
  | [], [] => true
  | x :: a', y :: b' => R_eqb x y && Vector_eqb a' b'
  | _, _ => false
  end.

Fixpoint Matrix_eqb (a b : Matrix) : bool :=
  match a, b with
  | [], [] => true
  | x :: a', y :: b' => Vector_eqb x y && Matrix_eqb a' b'
  | _, _ => false
  end.

Definition eqb {params} (s rhs : t params) : bool :=
  Vector_eqb (values s) (values rhs) &&
  match covariance s, covariance rhs with
  | Some c, Some c' => Matrix_eqb c c'
  | None, None => true
  | _, _ => false
  end.

Definition FullParameterSet : Type :=
  t [eLOC_0; eLOC_1; ePHI; eTHETA; eQOP; eT].

End ParameterSet.

(* ================================================================== *)
(** ** EventData/Measurement.hpp *)

(** [SourceLinkConcept]: a source link can be compared with [==]. *)
Class SourceLinkConcept (source_link_t : Type) := {
  source_link_eqb : source_link_t -> source_link_t -> bool
}.

(** [std::shared_ptr<const T>]: the address of the object it manages;
    [==] on shared pointers compares the addresses. *)
Record shared_ptr := mkPtr { get : nat }.

Definition shared_ptr_eqb (a b : shared_ptr) : bool :=
  Nat.eqb (get a) (get b).

(** The objects in memory, by address. *)
Definition Memory (T : Type) := nat -> option T.

Definition deref {T : Type} (mem : Memory T) (ptr : shared_ptr) : option T :=
  mem (get ptr).

Module Measurement.

Section Measurement.

Context {source_link_t : Type} `{SourceLinkConcept source_link_t}.
Variable params : list BoundParametersIndices.

(** [TrackParametersBase::getParameterSet], pure virtual in
    TrackParametersBase.h. *)
Variable getParameterSet : BoundParameters -> ParameterSet.FullParameterSet.

Record t := mk {
  m_oParameters : ParameterSet.t params;
  m_pReferenceObject : shared_ptr;
  m_sourceLink : source_link_t
}.

(** [residual(const BoundParameters&)] *)
Definition residual (m : t) (trackPars : BoundParameters) : Vector :=
  ParameterSet.residual (m_oParameters m) (getParameterSet trackPars).

(** [operator==] *)
Definition eqb (m rhs : t) : bool :=
  (ParameterSet.eqb (m_oParameters m) (m_oParameters rhs) &&
   shared_ptr_eqb (m_pReferenceObject m) (m_pReferenceObject rhs)) &&
  source_link_eqb (m_sourceLink m) (m_sourceLink rhs).

(** [operator!=] *)
Definition neqb (m rhs : t) : bool := negb (eqb m rhs).

End Measurement.

End Measurement.

(* ================================================================== *)
(** ** Plugins/Digitization/CartesianSegmentation.hpp *)

Module CartesianSegmentation.

Record Vector2D := mkVector2D { v2x : R; v2y : R }.

(** [DigitizationCell(size_t, size_t)]: the two channel numbers. *)
Record DigitizationCell := mkDigitizationCell {
  channel0 : nat;
  channel1 : nat
}.

(** Utilities/BinUtility.hpp is a collaborator of the segmentation: the
    bin utility is the record of the methods the segmentation calls,
    [bin(position, ba)] for the two position types and [bins(ba)]. *)
Record BinUtility := {
  bin3D : Vector3D -> nat -> nat;
  bin2D : Vector2D -> nat -> nat;
  bins : nat -> nat
}.

(** Surfaces/PlanarBounds.hpp is a collaborator of the segmentation: the
    bounds are what [boundingBox().valueStore()] yields, the stored values
    of the bounding rectangle. *)
Record PlanarBounds := {
  boundingBox_valueStore : list R
}.

(** The two members; a shared pointer is read through, never compared. *)
Record t := mk {
  m_activeBounds : PlanarBounds;
  m_binUtility : BinUtility
}.

(** [moduleBounds()] and [binUtility()] *)
Definition moduleBounds (seg : t) : PlanarBounds := m_activeBounds seg.

Definition binUtility (seg : t) : BinUtility := m_binUtility seg.

(** [cellT<T>(const T&)], with the overload of [bin] the position type
    selects. *)
Definition cellT {T : Type} (bin : BinUtility -> T -> nat -> nat)
    (seg : t) (position : T) : DigitizationCell :=
  mkDigitizationCell (bin (m_binUtility seg) position 0%nat)
    (bin (m_binUtility seg) position 1%nat).

(** [cell(const Vector3D&)] and [cell(const Vector2D&)] *)
Definition cell_3D (seg : t) (position : Vector3D) : DigitizationCell :=
  cellT bin3D seg position.

Definition cell_2D (seg : t) (position : Vector2D) : DigitizationCell :=
  cellT bin2D seg position.

(** [pitch()]; the bin counts are [size_t] converted to [double]. *)
Definition pitch (seg : t) : R * R :=
  let values := boundingBox_valueStore (m_activeBounds seg) in
  let pitchX := 2 * coeff values 0 / INR (bins (m_binUtility seg) 0%nat) in
  let pitchY := 2 * coeff values 1 / INR (bins (m_binUtility seg) 1%nat) in
  (pitchX, pitchY).

End CartesianSegmentation.

(* ================================================================== *)
(** ** Example objects *)

Module Examples.

Import StraightLineStepper.

(** The embedding of the local coordinates, q/p and time of a plane
    spanned by the first two axes into the free frame (8 x 6). *)
Definition planeToGlobal : BoundToFreeMatrix :=
  [[1; 0; 0; 0; 0; 0];
   [0; 1; 0; 0; 0; 0];
   [0; 0; 0; 0; 0; 0];
   [0; 0; 0; 0; 0; 1];
   [0; 0; 0; 0; 0; 0];
   [0; 0; 0; 0; 0; 0];
   [0; 0; 0; 0; 0; 0];
   [0; 0; 0; 0; 1; 0]].

(** A plane through the origin spanned by the first two axes. *)
Definition plane : Surface := {|
  localToGlobal := fun _ loc => mkVector3D (fst loc) (snd loc) 0;
  initJacobianToGlobal := fun _ _ _ _ _ => planeToGlobal;
  initJacobianToLocal := fun _ _ _ => transpose planeToGlobal
|}.

(** A state in the manner of [straight_line_stepper_test]: position
    (1,2,3), charge -1, time 7, navigation backward, step size 123,
    tolerance 234, covariance 8 * Identity, with unit momentum along the
    third axis. *)
Definition slsState : State := {|
  geoContext := GeoCtx 0;
  cov := map (map (Rmult 8)) (Identity 6);
  jacobian := Identity 6;
  jacTransport := Identity 8;
  derivative := Zero 8;
  jacToGlobal := ZeroMatrix 8 6;
  covTransport := true;
  pos := mkVector3D 1 2 3;
  dir := mkVector3D 0 0 1;
  p := 1;
  q := -1;
  t := 7;
  navDir := backward;
  pathAccumulated := 0;
  stepSize := ConstrainedStep.make (navValue backward * 123);
  previousStepSize := 0;
  tolerance := 234
|}.

(** The same state after a step with bookkeeping, once the flag has been
    cleared as the test does ([ps.stepping.covTransport = false]): the
    derivative holds the direction and dt/ds. *)
Definition steppedInactive : State :=
  set_covTransport
    (set_derivative slsState [0; 0; 1; 1; 0; 0; 0; 0]) false.

(** A state no tier of which holds a constraint. *)
Definition unconstrainedState : State :=
  set_stepSize slsState (ConstrainedStep.make double_max).

(** Free parameters pointing along the first axis, with q/p = 1/2. *)
Definition freeAlongX : FreeVector := [2; 4; 8; 321; 3; 0; 0; 1 / 2].

Definition boundAtOrigin : BoundVector := [0; 0; 0; 0; 1; 0].

(** Two measured azimuths, 3.0 and -3.0. *)
Definition phi3 : ParameterSet.t [ePHI] := ParameterSet.mk [3] None.

Definition phiMinus3 : ParameterSet.t [ePHI] := ParameterSet.mk [-3] None.

(** Source links that are plain identifiers. *)
#[global] Instance Identifier : SourceLinkConcept nat :=
  {| source_link_eqb := Nat.eqb |}.

(** A measurement of azimuth 3.0 with identifier 7 whose reference object
    lives at the given address. *)
Definition measurementAt (address : nat) : Measurement.t [ePHI] :=
  Measurement.mk [ePHI] phi3 (mkPtr address) 7%nat.

(** A memory holding two copies of the same plane, at addresses 1 and 2. *)
Definition twoPlanes : Memory Surface :=
  fun address =>
    match address with
    | 1%nat | 2%nat => Some plane
    | _ => None
    end.

(** A strip module of half lengths 4 and 2 with 8 bins along the first
    axis and one along the second; the positions looked up all fall into
    the first bin. *)
Definition stripBins : CartesianSegmentation.BinUtility := {|
  CartesianSegmentation.bin3D := fun _ _ => 0%nat;
  CartesianSegmentation.bin2D := fun _ _ => 0%nat;
  CartesianSegmentation.bins :=
    fun ba => match ba with 0%nat => 8%nat | _ => 1%nat end
|}.

Definition stripModule : CartesianSegmentation.t :=
  CartesianSegmentation.mk
    {| CartesianSegmentation.boundingBox_valueStore := [4; 2] |} stripBins.

(** A surface whose [initJacobianToGlobal] fills the first entry only and
    leaves the rest of the matrix it is given as it finds it. *)
Definition fillsFirstEntry : Surface := {|
  localToGlobal := fun _ loc => mkVector3D (fst loc) (snd loc) 0;
  initJacobianToGlobal :=
    fun _ jac _ _ _ =>
      match jac with
      | (_ :: row) :: rows => (1 :: row) :: rows
      | _ => jac
      end;
  initJacobianToLocal := fun _ _ _ => transpose planeToGlobal
|}.

(** Track parameters along the first axis at the plane, and their
    parameter set: no local offset, azimuth 0, polar angle pi/2, q/p and
    time as in the free vector. *)
Definition trackParameters : BoundParameters :=
  mkBoundParameters None freeAlongX plane.

Definition parameterSetOf (trackPars : BoundParameters)
  : ParameterSet.FullParameterSet :=
  ParameterSet.mk
    [0; 0; 0; PI / 2;
     coeff (bp_parameters trackPars) eFreeQOverP;
     coeff (bp_parameters trackPars) eFreeTime]
    (bp_covariance trackPars).

End Examples.

(* ================================================================== *)
(** * Properties *)

Import StraightLineStepper.

(** ** Vectors *)



Lemma norm_normalized_zero (v : Vector3D) :
  squaredNorm v = 0 -> normalized v = v.
Proof.
  intros Hz. unfold normalized.
  destruct (Rlt_dec 0 (squaredNorm v)) as [Hpos | _]; [lra | reflexivity].
Qed.


(** ** Step sizes *)

Lemma double_max_pos : 0 < double_max.
Proof. unfold double_max. apply IZR_lt. reflexivity. Qed.

Lemma double_max_large : 1337 < double_max.
Proof. unfold double_max. apply IZR_lt. reflexivity. Qed.

Lemma value_make_double_max :
  ConstrainedStep.value (ConstrainedStep.make double_max) = double_max.
Proof.
  pose proof double_max_pos as Hpos.
  unfold ConstrainedStep.make.
  destruct (Rlt_dec 0 double_max) as [_ | Hn]; [| contradiction].
  unfold ConstrainedStep.value, ConstrainedStep.unconstrained; simpl.
  replace (double_max * 1) with double_max by ring.
  rewrite !Rmin_left; lra.
Qed.

(** A step built from a representable value converts back to it. *)
Lemma value_make (x : R) :
  - double_max <= x <= double_max ->
  ConstrainedStep.value (ConstrainedStep.make x) = x.
Proof.
  intros [Hlow Hhigh]. unfold ConstrainedStep.make.
  destruct (Rlt_dec 0 x) as [Hpos | Hneg];
    unfold ConstrainedStep.value, ConstrainedStep.unconstrained; simpl;
    unfold Rmin, Rmax; repeat (destruct (Rle_dec _ _)); lra.
Qed.

(** Releasing the tier that was set gives back the step it was set on,
    when that tier held no constraint before. *)
Lemma release_set_actor (s : ConstrainedStep.t) (x : R) :
  ConstrainedStep.v_actor s =
    ConstrainedStep.unconstrained (ConstrainedStep.direction s) ->
  ConstrainedStep.release
    (ConstrainedStep.set s ConstrainedStep.actor x) ConstrainedStep.actor = s.
Proof.
  intros Hactor. destruct s as [a b c d n]; simpl in *.
  unfold ConstrainedStep.release; simpl. rewrite Hactor. reflexivity.
Qed.

(** ** update *)

(** The direction the free-vector overload stores, component by
    component, when the segment is not zero. *)
Lemma normalized_components (v : Vector3D) :
  0 < squaredNorm v ->
  normalized v = mkVector3D (vx v / norm v) (vy v / norm v) (vz v / norm v).
Proof.
  intros Hpos. unfold normalized, norm.
  destruct (Rlt_dec 0 (squaredNorm v)) as [_ | Hn];
    [reflexivity | contradiction].
Qed.

(** C6: the update overload taking an 8-component free vector
    [position(3), time, direction(3), q/p] and a covariance overwrites the
    position with components 0..2, the time with component 3, the direction
    with the normalized components 4..6, the momentum with |1/(q/p)| and the
    covariance with the given matrix; the overload without a covariance
    writes the position, direction, momentum and time it is given and leaves
    every other member, the covariance included, as it was. *)
Theorem update_overwrites_kinematics :
  forall (state : State) (parameters : FreeVector)
         (covariance : BoundSymMatrix)
         (uposition udirection : Vector3D) (up time : R),
    (pos (update state parameters covariance) =
       mkVector3D (coeff parameters 0) (coeff parameters 1)
         (coeff parameters 2) /\
     t (update state parameters covariance) = coeff parameters 3 /\
     dir (update state parameters covariance) =
       normalized
         (mkVector3D (coeff parameters 4) (coeff parameters 5)
            (coeff parameters 6)) /\
     p (update state parameters covariance) =
       Rabs (1 / coeff parameters 7) /\
     cov (update state parameters covariance) = covariance) /\
    update_components state uposition udirection up time =
      mkState (geoContext state) (cov state) (jacobian state)
        (jacTransport state) (derivative state) (jacToGlobal state)
        (covTransport state) uposition udirection up (q state) time
        (navDir state) (pathAccumulated state) (stepSize state)
        (previousStepSize state) (tolerance state).
Proof.
  intros state parameters covariance uposition udirection up time.
  split; [repeat split |]; reflexivity.
Qed.

(** C9: the update overload taking a free vector and a covariance leaves
    the charge, navigation direction, step size, previous step size,
    accumulated path length, tolerance, seed Jacobian, transport Jacobian
    and derivative unchanged; the charge is kept even when the q/p component
    of the free vector has the opposite sign. *)
Theorem update_frame :
  forall (state : State) (parameters : FreeVector)
         (covariance : BoundSymMatrix),
    let state' := update state parameters covariance in
    (q state' = q state /\
     navDir state' = navDir state /\
     stepSize state' = stepSize state /\
     previousStepSize state' = previousStepSize state /\
     pathAccumulated state' = pathAccumulated state /\
     tolerance state' = tolerance state /\
     jacToGlobal state' = jacToGlobal state /\
     jacTransport state' = jacTransport state /\
     derivative state' = derivative state) /\
    (q state < 0 -> 0 < coeff parameters eFreeQOverP -> q state' < 0) /\
    (0 < q state -> coeff parameters eFreeQOverP < 0 -> 0 < q state').
Proof.
  intros state parameters covariance state'.
  split; [repeat split; reflexivity |].
  split; intros Hq _; exact Hq.
Qed.

(** The test's case: the state has charge -1, the free vector q/p = 1/2. *)
Lemma update_frame_witness :
  q (update Examples.slsState Examples.freeAlongX (Identity 6)) < 0.
Proof.
  apply (update_frame Examples.slsState Examples.freeAlongX (Identity 6)).
  - simpl. lra.
  - unfold Examples.freeAlongX, coeff, eFreeQOverP. simpl. lra.
Defined.


(** A direction segment of norm 0 is stored as it is. *)
Lemma update_zero_direction :
  forall (state : State) (parameters : FreeVector)
         (covariance : BoundSymMatrix),
    squaredNorm (segment3 parameters eFreeDir0) = 0 ->
    norm (dir (update state parameters covariance)) = 0.
Proof.
  intros state parameters covariance Hz. simpl.
  rewrite norm_normalized_zero by exact Hz.
  unfold norm. rewrite Hz. apply sqrt_0.
Qed.

(** What a step leaves alone: direction, momentum, charge, covariance
    and step size; with bookkeeping inactive also derivative and transport
    Jacobian, as the unit test checks after each of its two steps. *)
Lemma step_frame
    (dtds : State -> R -> R) (stepJacobian : State -> R -> R -> FreeMatrix)
    (stepDerivative : State -> R -> FreeVector) (state : PropState) :
  let after := stepping (snd (step dtds stepJacobian stepDerivative state)) in
  fst (step dtds stepJacobian stepDerivative state) =
    ConstrainedStep.value (stepSize (stepping state)) /\
  dir after = dir (stepping state) /\
  p after = p (stepping state) /\
  q after = q (stepping state) /\
  cov after = cov (stepping state) /\
  stepSize after = stepSize (stepping state) /\
  (covTransport (stepping state) = false ->
   derivative after = derivative (stepping state) /\
   jacTransport after = jacTransport (stepping state)).
Proof.
  unfold step. cbn [fst snd stepping].
  destruct (covTransport (stepping state)) eqn:Hflag.
  - repeat split; try reflexivity; discriminate.
  - repeat split; reflexivity.
Qed.

(** A step after the component-wise update above still has the direction
    of norm 2, whatever the time rate and the transport of a step are. *)
Lemma step_keeps_direction_not_unit :
  forall (dtds : State -> R -> R)
         (stepJacobian : State -> R -> R -> FreeMatrix)
         (stepDerivative : State -> R -> FreeVector) (mass : R),
    norm
      (dir
         (stepping
            (snd
               (step dtds stepJacobian stepDerivative
                  (mkPropState
                     (update_components Examples.slsState (mkVector3D 2 4 8)
                        (mkVector3D 2 0 0) 1 321) mass))))) <> 1.
Proof.
  intros dtds stepJacobian stepDerivative mass.
  rewrite (proj1 (proj2 (step_frame dtds stepJacobian stepDerivative _))).
  cbn [stepping]. simpl. unfold norm, squaredNorm; simpl.
  replace (2 * 2 + 0 * 0 + 0 * 0) with (2 * 2) by ring.
  rewrite sqrt_square by lra. lra.
Qed.



(** ** resetState *)

(** C1: resetState converts the bound parameters to the free frame by the
    coordinate transform at the surface and stores them as [update] does,
    re-derives the seed Jacobian at that surface from the new position and
    direction, and leaves bound Jacobian = Identity, transport Jacobian =
    Identity, derivative = 0 and accumulated path length = 0; with the step
    size left unspecified the resulting step size is forward * the largest
    representable magnitude. *)
Theorem resetState_reanchors :
  forall (state : State) (boundParams : BoundVector) (cov' : BoundSymMatrix)
         (surface : Surface) (navDir' : NavigationDirection) (stepSize' : R),
    let free :=
      boundParameters2freeParameters (geoContext state) boundParams surface in
    let state' := resetState state boundParams cov' surface navDir' stepSize' in
    (pos state' = segment3 free eFreePos0 /\
     dir state' = normalized (segment3 free eFreeDir0) /\
     p state' = Rabs (1 / coeff free eFreeQOverP) /\
     t state' = coeff free eFreeTime /\
     cov state' = cov') /\
    jacToGlobal state' =
      initJacobianToGlobal surface (geoContext state) (jacToGlobal state)
        (pos state') (dir state') boundParams /\
    (jacobian state' = Identity 6 /\
     jacTransport state' = Identity 8 /\
     derivative state' = Zero 8 /\
     pathAccumulated state' = 0) /\
    (navDir state' = navDir' /\
     stepSize state' = ConstrainedStep.make stepSize') /\
    ConstrainedStep.value
      (stepSize (resetState_navDir state boundParams cov' surface navDir')) =
      navValue forward * double_max /\
    ConstrainedStep.value
      (stepSize (resetState_default state boundParams cov' surface)) =
      navValue forward * double_max.
Proof.
  intros state boundParams cov' surface navDir' stepSize' free state'.
  split; [repeat split; reflexivity |].
  split; [reflexivity |].
  split; [repeat split; reflexivity |].
  split; [split; reflexivity |].
  unfold resetState_navDir, resetState_default, resetState; simpl.
  rewrite value_make_double_max. split; ring.
Qed.

(** The unit test's reset with navigation forward and step size -246:
    the step size compares equal to forward * -246. *)
Example resetState_explicit_step :
  ConstrainedStep.value
    (stepSize
       (resetState Examples.slsState Examples.boundAtOrigin (Identity 6)
          Examples.plane forward (-2 * 123))) = navValue forward * (-2 * 123).
Proof.
  simpl. rewrite value_make; [ring |].
  pose proof double_max_large. lra.
Qed.

(** C10: resetState leaves the charge, the previous step size and the
    tolerance unchanged (and with them the bookkeeping flag and the geometry
    context): it writes the kinematics, covariance, navigation direction,
    step size, path length, the three Jacobians and the derivative, and
    nothing else. *)
Theorem resetState_frame :
  forall (state : State) (boundParams : BoundVector) (cov' : BoundSymMatrix)
         (surface : Surface) (navDir' : NavigationDirection) (stepSize' : R),
    let state' := resetState state boundParams cov' surface navDir' stepSize' in
    (q state' = q state /\
     previousStepSize state' = previousStepSize state /\
     tolerance state' = tolerance state) /\
    (covTransport state' = covTransport state /\
     geoContext state' = geoContext state) /\
    state' =
      mkState (geoContext state) (cov state') (jacobian state')
        (jacTransport state') (derivative state') (jacToGlobal state')
        (covTransport state) (pos state') (dir state') (p state') (q state)
        (t state') (navDir state') (pathAccumulated state') (stepSize state')
        (previousStepSize state) (tolerance state).
Proof.
  intros state boundParams cov' surface navDir' stepSize' state'.
  split; [repeat split; reflexivity |].
  split; [split; reflexivity |].
  subst state'. unfold resetState, update. cbn. reflexivity.
Qed.

(** ** The calls into the covariance engine *)

Lemma segment3_freeParameters_pos (state : State) :
  segment3 (freeParameters state) eFreePos0 = pos state.
Proof. unfold freeParameters, segment3, coeff; simpl. destruct (pos state); reflexivity. Qed.

Lemma segment3_freeParameters_dir (state : State) :
  segment3 (freeParameters state) eFreeDir0 = dir state.
Proof. unfold freeParameters, segment3, coeff; simpl. destruct (dir state); reflexivity. Qed.

Lemma writeBack_same (state : State) :
  writeBack state
    (mkTransport (cov state) (jacobian state) (jacTransport state)
       (derivative state) (jacToGlobal state)) = state.
Proof. destruct state; reflexivity. Qed.

Section AnyEngine.

(** Whatever the engine is, the stepper reads the bookkeeping flag in the
    two snapshot functions only, and writes nothing but the five members
    it hands over. *)
Variable detail_boundState :
  GeometryContext -> BoundSymMatrix -> BoundMatrix -> FreeMatrix ->
  FreeVector -> BoundToFreeMatrix -> FreeVector -> bool -> R -> Surface ->
  (BoundParameters * BoundMatrix * R) * Transport.
Variable detail_curvilinearState :
  BoundSymMatrix -> BoundMatrix -> FreeMatrix -> FreeVector ->
  BoundToFreeMatrix -> FreeVector -> bool -> R ->
  (CurvilinearParameters * BoundMatrix * R) * Transport.
Variable detail_covarianceTransport :
  BoundSymMatrix -> BoundMatrix -> FreeMatrix -> FreeVector ->
  BoundToFreeMatrix -> Vector3D -> Transport.
Variable detail_covarianceTransport_surface :
  GeometryContext -> BoundSymMatrix -> BoundMatrix -> FreeMatrix ->
  FreeVector -> BoundToFreeMatrix -> FreeVector -> Surface -> Transport.

Lemma writeBack_frame (state : State) (r : Transport) :
  writeBack state r =
    mkState (geoContext state) (e_cov r) (e_jacobian r) (e_jacTransport r)
      (e_derivative r) (e_jacToGlobal r) (covTransport state) (pos state)
      (dir state) (p state) (q state) (t state) (navDir state)
      (pathAccumulated state) (stepSize state) (previousStepSize state)
      (tolerance state).
Proof. reflexivity. Qed.

Lemma covarianceTransport_ignores_flag (state : State) (b : bool) :
  covarianceTransport detail_covarianceTransport (set_covTransport state b)
  = set_covTransport (covarianceTransport detail_covarianceTransport state) b.
Proof. reflexivity. Qed.

Lemma covarianceTransport_surface_ignores_flag
    (state : State) (surface : Surface) (b : bool) :
  covarianceTransport_surface detail_covarianceTransport_surface
    (set_covTransport state b) surface
  = set_covTransport
      (covarianceTransport_surface detail_covarianceTransport_surface
         state surface) b.
Proof. reflexivity. Qed.

(** An engine that changes an active state changes its inactive twin. *)
Lemma covarianceTransport_inactive_twin (state : State) :
  covTransport state = true ->
  covarianceTransport detail_covarianceTransport state <> state ->
  covarianceTransport detail_covarianceTransport
    (set_covTransport state false) <> set_covTransport state false.
Proof.
  intros Hflag Hchanged Heq. apply Hchanged.
  rewrite covarianceTransport_ignores_flag in Heq.
  unfold covarianceTransport in *. rewrite writeBack_frame in *.
  destruct state; simpl in *. subst.
  injection Heq as -> -> -> -> ->. reflexivity.
Qed.

Lemma boundState_frame (state : State) (surface : Surface) :
  let state' := snd (boundState detail_boundState state surface) in
  geoContext state' = geoContext state /\
  covTransport state' = covTransport state /\
  pos state' = pos state /\ dir state' = dir state /\
  p state' = p state /\ q state' = q state /\ t state' = t state /\
  navDir state' = navDir state /\
  pathAccumulated state' = pathAccumulated state /\
  stepSize state' = stepSize state /\
  previousStepSize state' = previousStepSize state /\
  tolerance state' = tolerance state.
Proof.
  unfold boundState.
  destruct (detail_boundState _ _ _ _ _ _ _ _ _ _) as [result refs].
  simpl. repeat split; reflexivity.
Qed.

Lemma curvilinearState_frame (state : State) :
  let state' := snd (curvilinearState detail_curvilinearState state) in
  geoContext state' = geoContext state /\
  covTransport state' = covTransport state /\
  pos state' = pos state /\ dir state' = dir state /\
  p state' = p state /\ q state' = q state /\ t state' = t state /\
  navDir state' = navDir state /\
  pathAccumulated state' = pathAccumulated state /\
  stepSize state' = stepSize state /\
  previousStepSize state' = previousStepSize state /\
  tolerance state' = tolerance state.
Proof.
  unfold curvilinearState.
  destruct (detail_curvilinearState _ _ _ _ _ _ _ _) as [result refs].
  simpl. repeat split; reflexivity.
Qed.

End AnyEngine.

(** X1: the two covarianceTransport overloads neither read nor write the
    bookkeeping flag.  Whatever the engine computes from the members it is
    handed, transporting a state whose flag has been set to [b] gives the
    transported state with its flag set to [b], and the flag after the call
    is the flag before it. *)
Theorem covarianceTransport_flag_blind :
  forall (engine :
            BoundSymMatrix -> BoundMatrix -> FreeMatrix -> FreeVector ->
            BoundToFreeMatrix -> Vector3D -> Transport)
         (engine_surface :
            GeometryContext -> BoundSymMatrix -> BoundMatrix -> FreeMatrix ->
            FreeVector -> BoundToFreeMatrix -> FreeVector -> Surface ->
            Transport)
         (state : State) (surface : Surface) (b : bool),
    covarianceTransport engine (set_covTransport state b) =
      set_covTransport (covarianceTransport engine state) b /\
    covarianceTransport_surface engine_surface (set_covTransport state b)
      surface =
      set_covTransport
        (covarianceTransport_surface engine_surface state surface) b /\
    covTransport (covarianceTransport engine state) = covTransport state /\
    covTransport (covarianceTransport_surface engine_surface state surface) =
      covTransport state.
Proof.
  intros engine engine_surface state surface b.
  split; [apply covarianceTransport_ignores_flag |].
  split; [apply covarianceTransport_surface_ignores_flag |].
  split; reflexivity.
Qed.

(** X2: boundState and curvilinearState write no member of the state
    other than the five they hand to the engine (covariance, bound Jacobian,
    transport Jacobian, derivative, seed Jacobian), whatever the engine
    does. *)
Theorem snapshots_frame :
  forall (engine :
            GeometryContext -> BoundSymMatrix -> BoundMatrix -> FreeMatrix ->
            FreeVector -> BoundToFreeMatrix -> FreeVector -> bool -> R ->
            Surface -> (BoundParameters * BoundMatrix * R) * Transport)
         (engine_curvilinear :
            BoundSymMatrix -> BoundMatrix -> FreeMatrix -> FreeVector ->
            BoundToFreeMatrix -> FreeVector -> bool -> R ->
            (CurvilinearParameters * BoundMatrix * R) * Transport)
         (state : State) (surface : Surface),
    let bound := snd (boundState engine state surface) in
    let curvilinear := snd (curvilinearState engine_curvilinear state) in
    (geoContext bound = geoContext state /\
     covTransport bound = covTransport state /\
     pos bound = pos state /\ dir bound = dir state /\
     p bound = p state /\ q bound = q state /\ t bound = t state /\
     navDir bound = navDir state /\
     pathAccumulated bound = pathAccumulated state /\
     stepSize bound = stepSize state /\
     previousStepSize bound = previousStepSize state /\
     tolerance bound = tolerance state) /\
    (geoContext curvilinear = geoContext state /\
     covTransport curvilinear = covTransport state /\
     pos curvilinear = pos state /\ dir curvilinear = dir state /\
     p curvilinear = p state /\ q curvilinear = q state /\
     t curvilinear = t state /\
     navDir curvilinear = navDir state /\
     pathAccumulated curvilinear = pathAccumulated state /\
     stepSize curvilinear = stepSize state /\
     previousStepSize curvilinear = previousStepSize state /\
     tolerance curvilinear = tolerance state).
Proof.
  intros engine engine_curvilinear state surface bound curvilinear.
  split.
  - apply boundState_frame.
  - apply curvilinearState_frame.
Qed.

(** With bookkeeping inactive the transport still resets the derivative of
    a stepped state, whatever the maps of the target frame are. *)
Lemma covarianceTransport_inactive_changes_state :
  covTransport Examples.steppedInactive = false /\
  (forall toLocal toGlobal,
     covarianceTransport
       (CovarianceEngine.covarianceTransport toLocal toGlobal)
       Examples.steppedInactive <> Examples.steppedInactive) /\
  (forall freeToBound,
     covarianceTransport_surface
       (CovarianceEngine.covarianceTransport_surface freeToBound)
       Examples.steppedInactive Examples.plane <> Examples.steppedInactive).
Proof.
  split; [reflexivity |].
  split; intros; intro Heq; apply (f_equal derivative) in Heq;
    simpl in Heq; injection Heq; intros; lra.
Qed.

(** C3 (amended): covarianceTransport, with or without a target surface,
    applies the chain rule J * covariance * J^t to the stored covariance,
    J being the projection onto the target frame (the surface or, when none
    is given, the curvilinear frame) composed with transport Jacobian and
    seed Jacobian, and leaves transport Jacobian = Identity and derivative =
    0.  It does so whether or not the bookkeeping flag is active: the flag is
    neither read nor written. *)
Theorem covarianceTransport_chain_rule :
  forall (freeToBound : GeometryContext -> FreeVector -> Surface -> BoundVector)
         (curvilinearToLocal : Vector3D -> FreeToBoundMatrix)
         (curvilinearToGlobal : Vector3D -> BoundToFreeMatrix)
         (state : State) (surface : Surface) (b : bool),
    let transport :=
      covarianceTransport
        (CovarianceEngine.covarianceTransport curvilinearToLocal
           curvilinearToGlobal) in
    let transport_surface :=
      covarianceTransport_surface
        (CovarianceEngine.covarianceTransport_surface freeToBound) in
    let J :=
      mul (curvilinearToLocal (dir state))
        (mul (jacTransport state) (jacToGlobal state)) in
    let J' :=
      mul (initJacobianToLocal surface (geoContext state) (pos state)
             (dir state))
        (mul (jacTransport state) (jacToGlobal state)) in
    (cov (transport state) = mul (mul J (cov state)) (transpose J) /\
     jacTransport (transport state) = Identity 8 /\
     derivative (transport state) = Zero 8 /\
     covTransport (transport state) = covTransport state) /\
    (cov (transport_surface state surface) =
       mul (mul J' (cov state)) (transpose J') /\
     jacTransport (transport_surface state surface) = Identity 8 /\
     derivative (transport_surface state surface) = Zero 8 /\
     covTransport (transport_surface state surface) = covTransport state) /\
    transport (set_covTransport state b) =
      set_covTransport (transport state) b /\
    transport_surface (set_covTransport state b) surface =
      set_covTransport (transport_surface state surface) b.
Proof.
  intros freeToBound curvilinearToLocal curvilinearToGlobal state surface b
    transport transport_surface J J'.
  split; [repeat split; reflexivity |].
  split; [| split; reflexivity].
  unfold transport_surface, covarianceTransport_surface,
    CovarianceEngine.covarianceTransport_surface, J'.
  rewrite segment3_freeParameters_pos, segment3_freeParameters_dir.
  repeat split; reflexivity.
Qed.

(** C4: with the engine as the spec describes it, boundState and
    curvilinearState emit the snapshot (parameters, Jacobian, path length)
    and leave every member of the state as it was. *)
Theorem snapshots_leave_state_unchanged :
  forall (curvilinearToLocal : Vector3D -> FreeToBoundMatrix)
         (state : State) (surface : Surface),
    let bound := boundState CovarianceEngine.boundState state surface in
    let curvilinear :=
      curvilinearState (CovarianceEngine.curvilinearState curvilinearToLocal)
        state in
    (snd bound = state /\
     bp_parameters (fst (fst (fst bound))) = freeParameters state /\
     bp_referenceSurface (fst (fst (fst bound))) = surface /\
     snd (fst bound) = pathAccumulated state) /\
    (snd curvilinear = state /\
     cp_parameters (fst (fst (fst curvilinear))) = freeParameters state /\
     snd (fst curvilinear) = pathAccumulated state).
Proof.
  intros curvilinearToLocal state surface bound curvilinear.
  unfold bound, curvilinear, boundState, curvilinearState,
    CovarianceEngine.boundState, CovarianceEngine.curvilinearState.
  destruct (covTransport state); simpl;
    rewrite writeBack_same; repeat split; reflexivity.
Qed.

(** ** setStepSize and releaseStepSize *)

Ltac case_min_max :=
  unfold Rmin, Rmax; repeat (destruct (Rle_dec _ _)); try lra.

(** What the two functions do to the tiers, for every state. *)
Lemma release_after_set (state : State) (stepSize' : R) :
  previousStepSize (setStepSize state stepSize') =
    ConstrainedStep.value (stepSize state) /\
  stepSize (setStepSize state stepSize') =
    ConstrainedStep.set (stepSize state) ConstrainedStep.actor stepSize' /\
  stepSize (releaseStepSize (setStepSize state stepSize')) =
    ConstrainedStep.release (stepSize state) ConstrainedStep.actor.
Proof. repeat split; reflexivity. Qed.

(** The unit test: on the state built with step size 123 going backward,
    [setStepSize(1337)] gives 1337 and records -123, and [releaseStepSize]
    gives -123 again, which is not backward * the largest magnitude. *)
Lemma releaseStepSize_keeps_user_step :
  stepSize (releaseStepSize (setStepSize Examples.slsState 1337)) =
    stepSize Examples.slsState /\
  ConstrainedStep.value
    (stepSize (setStepSize Examples.slsState 1337)) = 1337 /\
  previousStepSize (setStepSize Examples.slsState 1337) = -123 /\
  ConstrainedStep.value
    (stepSize (releaseStepSize (setStepSize Examples.slsState 1337)))
    = -123 /\
  ConstrainedStep.value
    (stepSize (releaseStepSize (setStepSize Examples.slsState 1337)))
    <> navValue (navDir Examples.slsState) * double_max.
Proof.
  pose proof double_max_large as Hmax.
  assert (Hv : ConstrainedStep.value
                 (stepSize (releaseStepSize
                              (setStepSize Examples.slsState 1337))) = -123).
  { simpl. unfold ConstrainedStep.make, ConstrainedStep.release. simpl.
    destruct (Rlt_dec 0 (-1 * 123)) as [Hpos | _]; [lra |].
    unfold ConstrainedStep.value, ConstrainedStep.unconstrained; simpl.
    case_min_max. }
  split; [| split; [| split; [| split]]].
  - simpl. unfold ConstrainedStep.release, ConstrainedStep.make; simpl.
    destruct (Rlt_dec 0 (-1 * 123)); reflexivity.
  - simpl. unfold ConstrainedStep.make. simpl.
    destruct (Rlt_dec 0 (-1 * 123)) as [Hpos | _]; [lra |].
    unfold ConstrainedStep.value, ConstrainedStep.unconstrained; simpl.
    case_min_max.
  - simpl. unfold ConstrainedStep.make. simpl.
    destruct (Rlt_dec 0 (-1 * 123)) as [Hpos | _]; [lra |].
    unfold ConstrainedStep.value, ConstrainedStep.unconstrained; simpl.
    case_min_max.
  - exact Hv.
  - rewrite Hv. simpl. lra.
Qed.

(** C5 (amended): setStepSize records the active step size as
    previousStepSize and overwrites the actor tier, leaving the other tiers
    and the direction of the step size; releaseStepSize after it resets the
    actor tier to the unconstrained bound and keeps the accuracy, aborter
    and user tiers, and nothing else of the state changes.  The active step
    size is then the tightest remaining bound: on a state built with a
    representable user step size it is that step size again, and it is the
    direction of the step size * the largest magnitude when no other tier
    holds a constraint. *)
Theorem releaseStepSize_unconstrained :
  forall (state : State) (stepSize' x : R),
    let before := stepSize state in
    let d := ConstrainedStep.direction before in
    let set := setStepSize state stepSize' in
    let released := stepSize (releaseStepSize set) in
    (previousStepSize set = ConstrainedStep.value before /\
     ConstrainedStep.v_actor (stepSize set) = stepSize' /\
     ConstrainedStep.v_accuracy (stepSize set) =
       ConstrainedStep.v_accuracy before /\
     ConstrainedStep.v_aborter (stepSize set) =
       ConstrainedStep.v_aborter before /\
     ConstrainedStep.v_user (stepSize set) = ConstrainedStep.v_user before /\
     ConstrainedStep.direction (stepSize set) = d) /\
    (ConstrainedStep.v_actor released = double_max * navValue d /\
     ConstrainedStep.v_accuracy released =
       ConstrainedStep.v_accuracy before /\
     ConstrainedStep.v_aborter released = ConstrainedStep.v_aborter before /\
     ConstrainedStep.v_user released = ConstrainedStep.v_user before /\
     ConstrainedStep.direction released = d) /\
    releaseStepSize set =
      set_stepSize
        (set_previousStepSize state (ConstrainedStep.value before))
        released /\
    ConstrainedStep.value released =
      match d with
      | forward =>
          Rmin
            (Rmin (ConstrainedStep.v_accuracy before) double_max)
            (Rmin (ConstrainedStep.v_aborter before)
               (ConstrainedStep.v_user before))
      | backward =>
          Rmax
            (Rmax (ConstrainedStep.v_accuracy before) (- double_max))
            (Rmax (ConstrainedStep.v_aborter before)
               (ConstrainedStep.v_user before))
      end /\
    (before = ConstrainedStep.make x ->
     - double_max <= x <= double_max ->
     ConstrainedStep.value released = x) /\
    (ConstrainedStep.v_accuracy before = double_max * navValue d ->
     ConstrainedStep.v_aborter before = double_max * navValue d ->
     ConstrainedStep.v_user before = double_max * navValue d ->
     ConstrainedStep.value released = navValue d * double_max).
Proof.
  intros state stepSize' x before d set released.
  pose proof double_max_pos as Hmax.
  assert (Hvalue :
    ConstrainedStep.value released =
      match d with
      | forward =>
          Rmin
            (Rmin (ConstrainedStep.v_accuracy before) double_max)
            (Rmin (ConstrainedStep.v_aborter before)
               (ConstrainedStep.v_user before))
      | backward =>
          Rmax
            (Rmax (ConstrainedStep.v_accuracy before) (- double_max))
            (Rmax (ConstrainedStep.v_aborter before)
               (ConstrainedStep.v_user before))
      end).
  { unfold released, set, releaseStepSize, setStepSize.
    cbn [stepSize set_stepSize set_previousStepSize].
    unfold ConstrainedStep.release, ConstrainedStep.value,
      ConstrainedStep.unconstrained.
    cbn [ConstrainedStep.set ConstrainedStep.direction
         ConstrainedStep.v_accuracy ConstrainedStep.v_actor
         ConstrainedStep.v_aborter ConstrainedStep.v_user].
    fold before. fold d.
    destruct d; cbn [navValue].
    - replace (double_max * -1) with (- double_max) by ring. reflexivity.
    - replace (double_max * 1) with double_max by ring. reflexivity. }
  split; [repeat split; reflexivity |].
  split; [repeat split; reflexivity |].
  split; [reflexivity |].
  split; [exact Hvalue |].
  split.
  - intros Hmake [Hlow Hhigh]. rewrite Hvalue.
    unfold d. rewrite Hmake. unfold ConstrainedStep.make.
    destruct (Rlt_dec 0 x) as [Hpos | Hneg];
      unfold ConstrainedStep.unconstrained;
      cbn [ConstrainedStep.direction ConstrainedStep.v_accuracy
           ConstrainedStep.v_aborter ConstrainedStep.v_user navValue];
      case_min_max.
  - intros Hacc Habo Huser. rewrite Hvalue, Hacc, Habo, Huser.
    destruct d; cbn [navValue]; case_min_max.
Qed.

Lemma releaseStepSize_unconstrained_witness :
  ConstrainedStep.value
    (stepSize
       (releaseStepSize (setStepSize Examples.unconstrainedState 1337))) =
    navValue
      (ConstrainedStep.direction (stepSize Examples.unconstrainedState)) *
    double_max /\
  ConstrainedStep.value
    (stepSize (releaseStepSize (setStepSize Examples.slsState 1337))) =
    navValue backward * 123.
Proof.
  pose proof double_max_large as Hlarge.
  split.
  - destruct
      (releaseStepSize_unconstrained Examples.unconstrainedState 1337 0)
      as (_ & _ & _ & _ & _ & Hfree).
    apply Hfree.
    + simpl. unfold ConstrainedStep.make.
      destruct (Rlt_dec 0 double_max); reflexivity.
    + simpl. unfold ConstrainedStep.make.
      destruct (Rlt_dec 0 double_max); reflexivity.
    + simpl. unfold ConstrainedStep.make.
      destruct (Rlt_dec 0 double_max) as [_ | Hn].
      * simpl. ring.
      * exfalso. apply Hn. exact double_max_pos.
  - destruct
      (releaseStepSize_unconstrained Examples.slsState 1337
         (navValue backward * 123))
      as (_ & _ & _ & _ & Huser & _).
    apply Huser.
    + reflexivity.
    + simpl. lra.
Defined.

(** ** ParameterSet: residuals *)

Lemma two_PI_pos : 0 < 2 * PI.
Proof. pose proof PI_RGT_0. lra. Qed.

Lemma PI_gt_3 : 3 < PI.
Proof. pose proof PI2_3_2. lra. Qed.

(** The wrapped difference lies in (-pi, pi] and differs from the plain one
    by a multiple of 2 pi. *)
Lemma wrap_range (d : R) :
  - PI < ParameterSet.wrap d <= PI.
Proof.
  unfold ParameterSet.wrap.
  pose proof two_PI_pos as Hp.
  destruct (base_Int_part ((PI - d) / (2 * PI))) as [Hle Hgt].
  set (k := IZR (Int_part ((PI - d) / (2 * PI)))) in *.
  assert (Hy : (PI - d) / (2 * PI) * (2 * PI) = PI - d) by (field; lra).
  split.
  - assert (H1 : ((PI - d) / (2 * PI) - 1) * (2 * PI) < k * (2 * PI))
      by (apply Rmult_lt_compat_r; lra).
    lra.
  - assert (H1 : k * (2 * PI) <= (PI - d) / (2 * PI) * (2 * PI))
      by (apply Rmult_le_compat_r; lra).
    lra.
Qed.

Lemma wrap_congruent (d : R) :
  exists k : Z, ParameterSet.wrap d = d + 2 * PI * IZR k.
Proof. eexists. reflexivity. Qed.

(** The two properties determine the wrapped difference: it is the only
    value congruent to [d] modulo 2 pi in (-pi, pi]. *)
Lemma wrap_unique (d : R) (z : Z) :
  - PI < d + 2 * PI * IZR z <= PI ->
  ParameterSet.wrap d = d + 2 * PI * IZR z.
Proof.
  intros [Hlow Hhigh].
  pose proof two_PI_pos as Hp.
  destruct (wrap_range d) as [Wlow Whigh].
  unfold ParameterSet.wrap in *.
  set (k := Int_part ((PI - d) / (2 * PI))) in *.
  assert (Hkz : k = z).
  { assert (H1 : (k - z < 1)%Z).
    { apply lt_IZR. rewrite minus_IZR.
      apply Rmult_lt_reg_l with (2 * PI); lra. }
    assert (H2 : (-1 < k - z)%Z).
    { apply lt_IZR. rewrite minus_IZR.
      apply Rmult_lt_reg_l with (2 * PI); lra. }
    lia. }
  rewrite Hkz. reflexivity.
Qed.

Lemma wrap_six : ParameterSet.wrap 6 = 6 - 2 * PI.
Proof.
  unfold ParameterSet.wrap.
  pose proof two_PI_pos as Hp. pose proof PI_gt_3 as H3.
  pose proof PI_4 as H4.
  destruct (base_Int_part ((PI - 6) / (2 * PI))) as [Hle Hgt].
  assert (Hy : (PI - 6) / (2 * PI) * (2 * PI) = PI - 6) by (field; lra).
  assert (Hneg : (PI - 6) / (2 * PI) < 0).
  { apply Rmult_lt_reg_r with (2 * PI); lra. }
  assert (Hlow : -1 <= (PI - 6) / (2 * PI)).
  { apply Rmult_le_reg_r with (2 * PI); lra. }
  assert (Hk : Int_part ((PI - 6) / (2 * PI)) = (-1)%Z).
  { assert (Hlt0 : (Int_part ((PI - 6) / (2 * PI)) < 0)%Z)
      by (apply lt_IZR; lra).
    assert (Hgt2 : (-2 < Int_part ((PI - 6) / (2 * PI)))%Z)
      by (apply lt_IZR; lra).
    lia. }
  rewrite Hk. lra.
Qed.

Lemma residual_nth {params params'}
    (s : ParameterSet.t params) (other : ParameterSet.t params')
    (k : nat) (par : BoundParametersIndices) :
  nth_error params k = Some par ->
  nth_error (ParameterSet.residual s other) k =
    Some
      (ParameterSet.difference par (ParameterSet.getParameter s par)
         (ParameterSet.getParameter other par)).
Proof.
  intros Hk. unfold ParameterSet.residual.
  rewrite nth_error_map, Hk. reflexivity.
Qed.

(** C7: the residual of two parameter sets is the elementwise difference;
    a cyclic component is the difference wrapped into (-pi, pi]; for the
    azimuths 3.0 and -3.0 it is 6 - 2 pi, of magnitude 2 pi - 6 and not 6;
    Measurement::residual is ParameterSet::residual of the measured set
    and the parameter set of the track parameters. *)
Theorem residual_wraps_cyclic :
  forall (params params' : list BoundParametersIndices)
         (s : ParameterSet.t params) (other : ParameterSet.t params')
         (k : nat) (par : BoundParametersIndices),
    nth_error params k = Some par ->
    ParameterSet.is_cyclic par = true ->
    (exists r : R,
       nth_error (ParameterSet.residual s other) k = Some r /\
       r = ParameterSet.wrap
             (ParameterSet.getParameter s par -
              ParameterSet.getParameter other par) /\
       (exists z : Z,
          r = ParameterSet.getParameter s par -
              ParameterSet.getParameter other par + 2 * PI * IZR z) /\
       - PI < r <= PI) /\
    (ParameterSet.residual Examples.phi3 Examples.phiMinus3 = [6 - 2 * PI] /\
     Rabs (6 - 2 * PI) = 2 * PI - 6 /\
     Rabs (6 - 2 * PI) < 6) /\
    (forall (source_link_t : Type)
            (getParameterSet : BoundParameters -> ParameterSet.FullParameterSet)
            (m : @Measurement.t source_link_t params)
            (trackPars : BoundParameters),
       Measurement.residual params getParameterSet m trackPars =
         ParameterSet.residual (Measurement.m_oParameters params m)
           (getParameterSet trackPars)).
Proof.
  intros params params' s other k par Hk Hcyc.
  split; [| split].
  - eexists. split; [apply residual_nth; exact Hk |].
    unfold ParameterSet.difference. rewrite Hcyc.
    split; [reflexivity |]. split; [apply wrap_congruent | apply wrap_range].
  - pose proof PI_gt_3 as H3. pose proof PI_4 as H4.
    split; [| split].
    + unfold ParameterSet.residual, ParameterSet.difference,
        ParameterSet.getParameter, coeff; simpl.
      replace (3 - -3) with 6 by lra. rewrite wrap_six. reflexivity.
    + rewrite Rabs_left by lra. lra.
    + rewrite Rabs_left by lra. lra.
  - intros. reflexivity.
Qed.

Lemma residual_wraps_cyclic_witness :
  exists r : R,
    nth_error (ParameterSet.residual Examples.phi3 Examples.phiMinus3) 0 =
      Some r /\
    r = ParameterSet.wrap
          (ParameterSet.getParameter Examples.phi3 ePHI -
           ParameterSet.getParameter Examples.phiMinus3 ePHI) /\
    (exists z : Z,
       r = ParameterSet.getParameter Examples.phi3 ePHI -
           ParameterSet.getParameter Examples.phiMinus3 ePHI +
           2 * PI * IZR z) /\
    - PI < r <= PI.
Proof.
  apply (residual_wraps_cyclic [ePHI] [ePHI] Examples.phi3 Examples.phiMinus3
           0%nat ePHI); reflexivity.
Defined.

(** A component that is not cyclic is the plain difference. *)
Lemma residual_plain_difference {params params'}
    (s : ParameterSet.t params) (other : ParameterSet.t params')
    (k : nat) (par : BoundParametersIndices) :
  nth_error params k = Some par ->
  ParameterSet.is_cyclic par = false ->
  nth_error (ParameterSet.residual s other) k =
    Some (ParameterSet.getParameter s par - ParameterSet.getParameter other par).
Proof.
  intros Hk Hcyc. rewrite (residual_nth s other k par Hk).
  unfold ParameterSet.difference. rewrite Hcyc. reflexivity.
Qed.

(** ** Measurement: equality *)

Lemma R_eqb_eq (a b : R) : ParameterSet.R_eqb a b = true <-> a = b.
Proof.
  unfold ParameterSet.R_eqb. destruct (Req_dec_T a b) as [Heq | Hneq].
  - split; intros _; [exact Heq | reflexivity].
  - split; [discriminate | intros Heq; contradiction].
Qed.

Lemma Vector_eqb_eq (a b : Vector) :
  ParameterSet.Vector_eqb a b = true <-> a = b.
Proof.
  revert b. induction a as [| x a IH]; intros [| y b]; simpl.
  - split; reflexivity.
  - split; discriminate.
  - split; discriminate.
  - rewrite andb_true_iff, R_eqb_eq, IH. split.
    + intros [-> ->]. reflexivity.
    + intros Heq. injection Heq as -> ->. split; reflexivity.
Qed.

Lemma Matrix_eqb_eq (a b : Matrix) :
  ParameterSet.Matrix_eqb a b = true <-> a = b.
Proof.
  revert b. induction a as [| x a IH]; intros [| y b]; simpl.
  - split; reflexivity.
  - split; discriminate.
  - split; discriminate.
  - rewrite andb_true_iff, Vector_eqb_eq, IH. split.
    + intros [-> ->]. reflexivity.
    + intros Heq. injection Heq as -> ->. split; reflexivity.
Qed.

(** Equality of parameter sets is equality of the stored values and of the
    stored covariance, with no tolerance. *)
Lemma ParameterSet_eqb_eq {params} (s rhs : ParameterSet.t params) :
  ParameterSet.eqb s rhs = true <-> s = rhs.
Proof.
  destruct s as [v c], rhs as [v' c']. unfold ParameterSet.eqb; simpl.
  rewrite andb_true_iff, Vector_eqb_eq. split.
  - intros [-> Hc]. destruct c as [c |], c' as [c' |]; try discriminate.
    + apply Matrix_eqb_eq in Hc. subst. reflexivity.
    + reflexivity.
  - intros Heq. injection Heq as -> ->. split; [reflexivity |].
    destruct c' as [c' |]; [apply Matrix_eqb_eq |]; reflexivity.
Qed.

Lemma shared_ptr_eqb_eq (a b : shared_ptr) :
  shared_ptr_eqb a b = true <-> a = b.
Proof.
  destruct a as [x], b as [y]. unfold shared_ptr_eqb; simpl.
  rewrite Nat.eqb_eq. split.
  - intros ->. reflexivity.
  - intros Heq. injection Heq as ->. reflexivity.
Qed.

(** C8: two measurements compare equal if and only if their parameter
    sets compare equal (which is equality of the stored values), their
    reference pointers are the same pointer, and their source links compare
    equal; reference objects that are equal in value at different addresses
    do not make measurements equal. *)
Theorem Measurement_equality :
  forall (source_link_t : Type) (link : SourceLinkConcept source_link_t)
         (params : list BoundParametersIndices)
         (m rhs : @Measurement.t source_link_t params),
    (Measurement.eqb params m rhs = true <->
       ParameterSet.eqb (Measurement.m_oParameters params m)
         (Measurement.m_oParameters params rhs) = true /\
       Measurement.m_pReferenceObject params m =
         Measurement.m_pReferenceObject params rhs /\
       source_link_eqb (Measurement.m_sourceLink params m)
         (Measurement.m_sourceLink params rhs) = true) /\
    (ParameterSet.eqb (Measurement.m_oParameters params m)
       (Measurement.m_oParameters params rhs) = true <->
       Measurement.m_oParameters params m =
         Measurement.m_oParameters params rhs) /\
    (forall (RefObject : Type) (memory : Memory RefObject),
       deref memory (Measurement.m_pReferenceObject params m) =
         deref memory (Measurement.m_pReferenceObject params rhs) ->
       get (Measurement.m_pReferenceObject params m) <>
         get (Measurement.m_pReferenceObject params rhs) ->
       Measurement.eqb params m rhs = false).
Proof.
  intros source_link_t link params m rhs.
  split; [| split].
  - unfold Measurement.eqb.
    rewrite !andb_true_iff, shared_ptr_eqb_eq. tauto.
  - apply ParameterSet_eqb_eq.
  - intros RefObject memory _ Hdiff. unfold Measurement.eqb.
    destruct (shared_ptr_eqb _ _) eqn:Hptr.
    + apply shared_ptr_eqb_eq in Hptr. rewrite Hptr in Hdiff.
      contradiction.
    + rewrite andb_false_r. reflexivity.
Qed.

(** Two measurements that agree in values and source link and refer to
    equal planes stored at two addresses are not equal. *)
Example Measurement_equality_is_identity :
  deref Examples.twoPlanes
    (Measurement.m_pReferenceObject [ePHI] (Examples.measurementAt 1)) =
  deref Examples.twoPlanes
    (Measurement.m_pReferenceObject [ePHI] (Examples.measurementAt 2)) /\
  Measurement.eqb [ePHI] (Examples.measurementAt 1)
    (Examples.measurementAt 2) = false /\
  Measurement.eqb [ePHI] (Examples.measurementAt 1)
    (Examples.measurementAt 1) = true.
Proof.
  split; [reflexivity |]. split.
  - unfold Measurement.eqb, Examples.measurementAt; simpl.
    rewrite andb_false_r. reflexivity.
  - unfold Measurement.eqb, Examples.measurementAt; simpl.
    rewrite !andb_true_r. apply ParameterSet_eqb_eq. reflexivity.
Qed.

(* ================================================================== *)
(** * Further properties of the stepper *)

Lemma normalized_unit (v : Vector3D) :
  squaredNorm v = 1 -> normalized v = v.
Proof.
  intros Hone. unfold normalized. rewrite Hone.
  destruct (Rlt_dec 0 1) as [_ | Hn]; [| lra].
  rewrite sqrt_1. destruct v as [x y z]; simpl.
  f_equal; field.
Qed.

Lemma Rabs_one_over (x : R) : x <> 0 -> Rabs (1 / x) = 1 / Rabs x.
Proof.
  intros Hx. unfold Rdiv. rewrite Rabs_mult, Rabs_R1, Rabs_inv. reflexivity.
Qed.

(** X3: the free vector the stepper builds from a state, [pos, t, dir,
    q / p], fed back through update with the state's own covariance, gives
    the state back except for the momentum, which becomes p / |q|: for a
    state with unit direction, positive momentum and non-zero charge; the
    state itself comes back exactly when the charge is +1 or -1. *)
Theorem update_of_freeParameters :
  forall (state : State),
    squaredNorm (dir state) = 1 ->
    0 < p state ->
    q state <> 0 ->
    update state (freeParameters state) (cov state) =
      set_p state (p state / Rabs (q state)) /\
    (Rabs (q state) = 1 ->
     update state (freeParameters state) (cov state) = state).
Proof.
  intros state Hdir Hp Hq.
  assert (Hmom : Rabs (1 / (q state / p state)) = p state / Rabs (q state)).
  { replace (1 / (q state / p state)) with (p state / q state)
      by (field; split; lra).
    unfold Rdiv. rewrite Rabs_mult, Rabs_inv.
    rewrite (Rabs_pos_eq (p state)) by lra. reflexivity. }
  assert (Heq : update state (freeParameters state) (cov state) =
                set_p state (p state / Rabs (q state))).
  { unfold update. simpl.
    rewrite segment3_freeParameters_pos, segment3_freeParameters_dir.
    rewrite (normalized_unit (dir state) Hdir).
    change (coeff (freeParameters state) eFreeQOverP)
      with (q state / p state).
    rewrite Hmom. destruct state; reflexivity. }
  split; [exact Heq |].
  intros Hone. rewrite Heq, Hone.
  replace (p state / 1) with (p state) by field.
  destruct state; reflexivity.
Qed.

Lemma update_of_freeParameters_witness :
  update Examples.slsState (freeParameters Examples.slsState)
    (cov Examples.slsState) =
    set_p Examples.slsState
      (p Examples.slsState / Rabs (q Examples.slsState)) /\
  (Rabs (q Examples.slsState) = 1 ->
   update Examples.slsState (freeParameters Examples.slsState)
     (cov Examples.slsState) = Examples.slsState).
Proof.
  apply (update_of_freeParameters Examples.slsState).
  - unfold squaredNorm, Examples.slsState; simpl. lra.
  - unfold Examples.slsState; simpl. lra.
  - unfold Examples.slsState; simpl. lra.
Defined.

(** X4: updating a state with a free vector of unit direction and
    non-zero q/p and reading the free vector back reproduces position,
    time and direction, while the last component is (charge of the state)
    * |q/p|: the vector comes back unchanged only when the sign of q/p is
    the charge the state already has. *)
Theorem freeParameters_of_update :
  forall (state : State) (x y z time dx dy dz qOverP : R)
         (covariance : BoundSymMatrix),
    dx * dx + dy * dy + dz * dz = 1 ->
    qOverP <> 0 ->
    freeParameters
      (update state [x; y; z; time; dx; dy; dz; qOverP] covariance) =
      [x; y; z; time; dx; dy; dz; q state * Rabs qOverP] /\
    ((q state = 1 /\ 0 < qOverP) \/ (q state = -1 /\ qOverP < 0) ->
     freeParameters
       (update state [x; y; z; time; dx; dy; dz; qOverP] covariance) =
       [x; y; z; time; dx; dy; dz; qOverP]) /\
    ((q state = 1 /\ qOverP < 0) \/ (q state = -1 /\ 0 < qOverP) ->
     freeParameters
       (update state [x; y; z; time; dx; dy; dz; qOverP] covariance) =
       [x; y; z; time; dx; dy; dz; - qOverP]).
Proof.
  intros state x y z time dx dy dz qOverP covariance Hdir Hq.
  assert (Heq :
    freeParameters
      (update state [x; y; z; time; dx; dy; dz; qOverP] covariance) =
      [x; y; z; time; dx; dy; dz; q state * Rabs qOverP]).
  { unfold freeParameters, update; simpl.
    unfold segment3, coeff, eFreeDir0; simpl.
    rewrite (normalized_unit (mkVector3D dx dy dz)) by exact Hdir. simpl.
    unfold eFreeQOverP; simpl.
    rewrite Rabs_one_over by exact Hq.
    assert (Habs : Rabs qOverP <> 0) by (apply Rabs_no_R0; exact Hq).
    replace (q state / (1 / Rabs qOverP)) with (q state * Rabs qOverP)
      by (field; exact Habs).
    reflexivity. }
  split; [exact Heq |]. split.
  - intros [[Hc Hs] | [Hc Hs]]; rewrite Heq, Hc.
    + rewrite Rabs_pos_eq by lra.
      replace (1 * qOverP) with qOverP by ring. reflexivity.
    + rewrite Rabs_left by lra.
      replace (-1 * - qOverP) with qOverP by ring. reflexivity.
  - intros [[Hc Hs] | [Hc Hs]]; rewrite Heq, Hc.
    + rewrite Rabs_left by lra.
      replace (1 * - qOverP) with (- qOverP) by ring. reflexivity.
    + rewrite Rabs_pos_eq by lra.
      replace (-1 * qOverP) with (- qOverP) by ring. reflexivity.
Qed.

Lemma freeParameters_of_update_witness :
  freeParameters
    (update Examples.slsState [2; 4; 8; 321; 1; 0; 0; 1 / 2] (Identity 6)) =
    [2; 4; 8; 321; 1; 0; 0; q Examples.slsState * Rabs (1 / 2)].
Proof.
  apply (freeParameters_of_update Examples.slsState 2 4 8 321 1 0 0 (1 / 2)
           (Identity 6)); lra.
Defined.

(** X5: update with a free vector never stores a negative momentum and
    does not see the sign of q/p: two free vectors that differ only in that
    sign give the same state. *)
Theorem update_discards_sign :
  forall (state : State) (x y z time dx dy dz qOverP : R)
         (covariance : BoundSymMatrix) (parameters : FreeVector),
    0 <= p (update state parameters covariance) /\
    update state [x; y; z; time; dx; dy; dz; - qOverP] covariance =
      update state [x; y; z; time; dx; dy; dz; qOverP] covariance.
Proof.
  intros state x y z time dx dy dz qOverP covariance parameters.
  split.
  - simpl. apply Rabs_pos.
  - unfold update; simpl. unfold coeff, eFreeQOverP; simpl.
    replace (1 / - qOverP) with (- (1 / qOverP))
      by (unfold Rdiv; rewrite Rinv_opp; ring).
    rewrite Rabs_Ropp. reflexivity.
Qed.

(** X6: resetState forgets the kinematics, covariance, navigation
    direction, step size, path length, bound and transport Jacobian and
    derivative of the state it is applied to: two states that agree on the
    geometry context, the bookkeeping flag, the charge, the previous step
    size, the tolerance and the seed Jacobian are reset to the same state. *)
Theorem resetState_forgets :
  forall (state state' : State) (boundParams : BoundVector)
         (cov' : BoundSymMatrix) (surface : Surface)
         (navDir' : NavigationDirection) (stepSize' : R),
    geoContext state = geoContext state' ->
    covTransport state = covTransport state' ->
    q state = q state' ->
    previousStepSize state = previousStepSize state' ->
    tolerance state = tolerance state' ->
    jacToGlobal state = jacToGlobal state' ->
    resetState state boundParams cov' surface navDir' stepSize' =
      resetState state' boundParams cov' surface navDir' stepSize'.
Proof.
  intros state state' boundParams cov' surface navDir' stepSize'
    Hctx Hflag Hq Hprev Htol Hseed.
  destruct state, state'; simpl in *. subst.
  reflexivity.
Qed.

Lemma resetState_forgets_witness :
  resetState Examples.slsState Examples.boundAtOrigin (Identity 6)
    Examples.plane forward 1 =
  resetState
    (update_components
       (update Examples.slsState Examples.freeAlongX (Identity 6))
       (mkVector3D 0 0 0) (mkVector3D 1 0 0) 5 9)
    Examples.boundAtOrigin (Identity 6) Examples.plane forward 1.
Proof.
  apply resetState_forgets; reflexivity.
Defined.

(** A surface that leaves entries of the seed it is handed in place makes
    the reset depend on the seed before it: the states below differ in the
    seed Jacobian only and are reset to different states. *)
Lemma resetState_keeps_stale_seed :
  resetState Examples.slsState Examples.boundAtOrigin (Identity 6)
    Examples.fillsFirstEntry forward 1 <>
  resetState (set_jacToGlobal Examples.slsState Examples.planeToGlobal)
    Examples.boundAtOrigin (Identity 6) Examples.fillsFirstEntry forward 1.
Proof.
  intro Heq. apply (f_equal jacToGlobal) in Heq. simpl in Heq.
  apply (f_equal (fun m => coeff (nth 1 m []) 1)) in Heq.
  unfold coeff in Heq. simpl in Heq. lra.
Qed.

(** Normalising a state built by a chain of assignments. *)
Ltac state_compute :=
  cbv beta iota zeta delta
    [resetState update update_components writeBack position direction
     set_cov set_jacobian set_jacTransport set_derivative set_jacToGlobal
     set_covTransport set_pos set_dir set_p set_t set_navDir
     set_pathAccumulated set_stepSize set_previousStepSize
     geoContext cov jacobian jacTransport derivative jacToGlobal
     covTransport pos dir p q t navDir pathAccumulated stepSize
     previousStepSize tolerance].

(** X7: resetState hands the seed Jacobian of the state to the surface
    as it is, without clearing it.  When the surface's initJacobianToGlobal
    determines the whole matrix (its result does not depend on the matrix
    handed in), resetting twice with the same arguments is resetting once,
    and the reset state does not depend on the state before in anything but
    geometry context, flag, charge, previous step size and tolerance. *)
Theorem resetState_idempotent :
  forall (state state' : State) (boundParams : BoundVector)
         (cov' : BoundSymMatrix) (surface : Surface)
         (navDir' : NavigationDirection) (stepSize' : R),
    (forall gctx jac jac' position direction pars,
       initJacobianToGlobal surface gctx jac position direction pars =
       initJacobianToGlobal surface gctx jac' position direction pars) ->
    resetState
      (resetState state boundParams cov' surface navDir' stepSize')
      boundParams cov' surface navDir' stepSize' =
      resetState state boundParams cov' surface navDir' stepSize' /\
    (geoContext state = geoContext state' ->
     covTransport state = covTransport state' ->
     q state = q state' ->
     previousStepSize state = previousStepSize state' ->
     tolerance state = tolerance state' ->
     resetState state boundParams cov' surface navDir' stepSize' =
       resetState state' boundParams cov' surface navDir' stepSize').
Proof.
  intros state state' boundParams cov' surface navDir' stepSize' Hfull.
  split.
  - destruct state. state_compute. f_equal. apply Hfull.
  - intros Hctx Hflag Hq Hprev Htol.
    destruct state, state'. state_compute.
    cbn in Hctx, Hflag, Hq, Hprev, Htol. subst.
    f_equal. apply Hfull.
Qed.

Lemma resetState_idempotent_witness :
  resetState
    (resetState Examples.slsState Examples.boundAtOrigin (Identity 6)
       Examples.plane forward 1)
    Examples.boundAtOrigin (Identity 6) Examples.plane forward 1 =
  resetState Examples.slsState Examples.boundAtOrigin (Identity 6)
    Examples.plane forward 1.
Proof.
  exact
    (proj1
       (resetState_idempotent Examples.slsState Examples.slsState
          Examples.boundAtOrigin (Identity 6) Examples.plane forward 1
          (fun _ _ _ _ _ _ => eq_refl))).
Defined.

(** X8: the last update wins.  A free-vector update overrides whatever
    an earlier update of either kind stored; a component-wise update after a
    free-vector update keeps that update's covariance and nothing else of
    it. *)
Theorem update_last_wins :
  forall (state : State) (parameters parameters' : FreeVector)
         (covariance covariance' : BoundSymMatrix)
         (uposition udirection : Vector3D) (up time : R),
    update (update state parameters covariance) parameters' covariance' =
      update state parameters' covariance' /\
    update (update_components state uposition udirection up time)
      parameters' covariance' =
      update state parameters' covariance' /\
    update_components (update state parameters covariance)
      uposition udirection up time =
      set_cov (update_components state uposition udirection up time)
        covariance.
Proof.
  intros. repeat split; reflexivity.
Qed.

(** X9: the two covarianceTransport overloads write no member of the
    state other than the five they hand to the engine, whatever the engine
    does: geometry context, position, direction, momentum, charge, time,
    navigation direction, path length, step size, previous step size and
    tolerance are the same after the call, and so is the free vector of
    the state. *)
Theorem covarianceTransport_frame :
  forall (engine :
            BoundSymMatrix -> BoundMatrix -> FreeMatrix -> FreeVector ->
            BoundToFreeMatrix -> Vector3D -> Transport)
         (engine_surface :
            GeometryContext -> BoundSymMatrix -> BoundMatrix -> FreeMatrix ->
            FreeVector -> BoundToFreeMatrix -> FreeVector -> Surface ->
            Transport)
         (state : State) (surface : Surface),
    let curvilinear := covarianceTransport engine state in
    let bound := covarianceTransport_surface engine_surface state surface in
    (freeParameters curvilinear = freeParameters state /\
     geoContext curvilinear = geoContext state /\
     pos curvilinear = pos state /\ dir curvilinear = dir state /\
     p curvilinear = p state /\ q curvilinear = q state /\
     t curvilinear = t state /\
     navDir curvilinear = navDir state /\
     pathAccumulated curvilinear = pathAccumulated state /\
     stepSize curvilinear = stepSize state /\
     previousStepSize curvilinear = previousStepSize state /\
     tolerance curvilinear = tolerance state) /\
    (freeParameters bound = freeParameters state /\
     geoContext bound = geoContext state /\
     pos bound = pos state /\ dir bound = dir state /\
     p bound = p state /\ q bound = q state /\ t bound = t state /\
     navDir bound = navDir state /\
     pathAccumulated bound = pathAccumulated state /\
     stepSize bound = stepSize state /\
     previousStepSize bound = previousStepSize state /\
     tolerance bound = tolerance state).
Proof.
  intros engine engine_surface state surface curvilinear bound.
  split; repeat split; reflexivity.
Qed.

(* ================================================================== *)
(** * Further properties of Measurement *)

Lemma ParameterSet_eqb_sym {params} (s rhs : ParameterSet.t params) :
  ParameterSet.eqb s rhs = ParameterSet.eqb rhs s.
Proof.
  destruct (ParameterSet.eqb s rhs) eqn:Hl, (ParameterSet.eqb rhs s) eqn:Hr;
    try reflexivity.
  - apply ParameterSet_eqb_eq in Hl. subst.
    rewrite (proj2 (ParameterSet_eqb_eq rhs rhs) eq_refl) in Hr.
    discriminate.
  - apply ParameterSet_eqb_eq in Hr. subst.
    rewrite (proj2 (ParameterSet_eqb_eq s s) eq_refl) in Hl.
    discriminate.
Qed.

Lemma shared_ptr_eqb_sym (a b : shared_ptr) :
  shared_ptr_eqb a b = shared_ptr_eqb b a.
Proof. unfold shared_ptr_eqb. apply Nat.eqb_sym. Qed.

(** X10: when [==] on the source links is symmetric and transitive, so
    is [==] on measurements, and [!=] is its negation, hence symmetric as
    well. *)
Theorem Measurement_eqb_symmetric_transitive :
  forall (source_link_t : Type) (link : SourceLinkConcept source_link_t)
         (params : list BoundParametersIndices)
         (m1 m2 m3 : @Measurement.t source_link_t params),
    (forall a b : source_link_t, source_link_eqb a b = source_link_eqb b a) ->
    (forall a b c : source_link_t,
       source_link_eqb a b = true -> source_link_eqb b c = true ->
       source_link_eqb a c = true) ->
    Measurement.eqb params m1 m2 = Measurement.eqb params m2 m1 /\
    (Measurement.eqb params m1 m2 = true ->
     Measurement.eqb params m2 m3 = true ->
     Measurement.eqb params m1 m3 = true) /\
    Measurement.neqb params m1 m2 = negb (Measurement.eqb params m1 m2) /\
    Measurement.neqb params m1 m2 = Measurement.neqb params m2 m1.
Proof.
  intros source_link_t link params m1 m2 m3 Hsym Htrans.
  assert (Heq : forall a b : @Measurement.t source_link_t params,
            Measurement.eqb params a b = Measurement.eqb params b a).
  { intros a b. unfold Measurement.eqb.
    rewrite ParameterSet_eqb_sym, shared_ptr_eqb_sym, Hsym. reflexivity. }
  split; [apply Heq |]. split; [| split].
  - unfold Measurement.eqb. rewrite !andb_true_iff.
    intros [[Hp Hr] Hl] [[Hp' Hr'] Hl'].
    apply ParameterSet_eqb_eq in Hp. apply ParameterSet_eqb_eq in Hp'.
    apply shared_ptr_eqb_eq in Hr. apply shared_ptr_eqb_eq in Hr'.
    repeat split.
    + apply ParameterSet_eqb_eq. congruence.
    + apply shared_ptr_eqb_eq. congruence.
    + exact (Htrans _ _ _ Hl Hl').
  - reflexivity.
  - unfold Measurement.neqb. rewrite Heq. reflexivity.
Qed.

Lemma Measurement_eqb_symmetric_transitive_witness :
  Measurement.eqb [ePHI] (Examples.measurementAt 1)
    (Examples.measurementAt 2) =
  Measurement.eqb [ePHI] (Examples.measurementAt 2)
    (Examples.measurementAt 1).
Proof.
  exact
    (proj1
       (Measurement_eqb_symmetric_transitive nat Examples.Identifier [ePHI]
          (Examples.measurementAt 1) (Examples.measurementAt 2)
          (Examples.measurementAt 1) Nat.eqb_sym
          (fun a b c Hab Hbc =>
             proj2 (Nat.eqb_eq a c)
               (eq_trans (proj1 (Nat.eqb_eq a b) Hab)
                  (proj1 (Nat.eqb_eq b c) Hbc))))).
Defined.

(** X11: measurements that compare equal give the same residual against
    any track parameters, hold the same parameter values and covariance,
    and point to the same reference object. *)
Theorem equal_measurements_same_residual :
  forall (source_link_t : Type) (link : SourceLinkConcept source_link_t)
         (params : list BoundParametersIndices)
         (getParameterSet : BoundParameters -> ParameterSet.FullParameterSet)
         (m rhs : @Measurement.t source_link_t params)
         (trackPars : BoundParameters),
    Measurement.eqb params m rhs = true ->
    Measurement.residual params getParameterSet m trackPars =
      Measurement.residual params getParameterSet rhs trackPars /\
    ParameterSet.values (Measurement.m_oParameters params m) =
      ParameterSet.values (Measurement.m_oParameters params rhs) /\
    ParameterSet.covariance (Measurement.m_oParameters params m) =
      ParameterSet.covariance (Measurement.m_oParameters params rhs) /\
    get (Measurement.m_pReferenceObject params m) =
      get (Measurement.m_pReferenceObject params rhs) /\
    Measurement.neqb params m rhs = false.
Proof.
  intros source_link_t link params getParameterSet m rhs trackPars Heq.
  assert (Hall := Heq). unfold Measurement.eqb in Hall.
  rewrite !andb_true_iff in Hall. destruct Hall as [[Hp Hr] _].
  apply ParameterSet_eqb_eq in Hp. apply shared_ptr_eqb_eq in Hr.
  unfold Measurement.residual, Measurement.neqb.
  rewrite Hp, Hr, Heq. repeat split; reflexivity.
Qed.

Lemma equal_measurements_same_residual_witness :
  Measurement.residual [ePHI] Examples.parameterSetOf
    (Examples.measurementAt 1) Examples.trackParameters =
  Measurement.residual [ePHI] Examples.parameterSetOf
    (Examples.measurementAt 1) Examples.trackParameters.
Proof.
  apply (equal_measurements_same_residual nat Examples.Identifier [ePHI]
           Examples.parameterSetOf (Examples.measurementAt 1)
           (Examples.measurementAt 1) Examples.trackParameters).
  unfold Measurement.eqb, Examples.measurementAt; simpl.
  rewrite !andb_true_r. apply ParameterSet_eqb_eq. reflexivity.
Defined.

(* ================================================================== *)
(** * CartesianSegmentation *)

(** X12: the pitches tile the bounding box: with a non-zero number of
    bins along an axis, pitch * number of bins is twice the stored half
    length along that axis; with a single bin the pitch is the full length;
    a positive half length gives a positive pitch. *)
Theorem pitch_tiles_bounding_box :
  forall (seg : CartesianSegmentation.t),
    let values :=
      CartesianSegmentation.boundingBox_valueStore
        (CartesianSegmentation.moduleBounds seg) in
    let binsX :=
      CartesianSegmentation.bins (CartesianSegmentation.binUtility seg) 0 in
    let binsY :=
      CartesianSegmentation.bins (CartesianSegmentation.binUtility seg) 1 in
    binsX <> 0%nat ->
    binsY <> 0%nat ->
    (fst (CartesianSegmentation.pitch seg) * INR binsX = 2 * coeff values 0 /\
     snd (CartesianSegmentation.pitch seg) * INR binsY = 2 * coeff values 1) /\
    (binsY = 1%nat ->
     snd (CartesianSegmentation.pitch seg) = 2 * coeff values 1) /\
    (0 < coeff values 0 -> 0 < fst (CartesianSegmentation.pitch seg)) /\
    (0 < coeff values 1 -> 0 < snd (CartesianSegmentation.pitch seg)).
Proof.
  intros seg values binsX binsY HX HY.
  assert (HXr : INR binsX <> 0) by (apply not_0_INR; exact HX).
  assert (HYr : INR binsY <> 0) by (apply not_0_INR; exact HY).
  assert (HXp : 0 < INR binsX) by (apply lt_0_INR; lia).
  assert (HYp : 0 < INR binsY) by (apply lt_0_INR; lia).
  unfold CartesianSegmentation.pitch, values, binsX, binsY,
    CartesianSegmentation.moduleBounds, CartesianSegmentation.binUtility
    in *.
  cbn [fst snd].
  split; [split; field; assumption |].
  split; [| split].
  - intros Hone. rewrite Hone. simpl. field.
  - intros Hpos. apply Rdiv_lt_0_compat; lra.
  - intros Hpos. apply Rdiv_lt_0_compat; lra.
Qed.

Lemma pitch_tiles_bounding_box_witness :
  fst (CartesianSegmentation.pitch Examples.stripModule) * INR 8 = 2 * 4 /\
  snd (CartesianSegmentation.pitch Examples.stripModule) * INR 1 = 2 * 2.
Proof.
  exact
    (proj1
       (pitch_tiles_bounding_box Examples.stripModule
          (fun H : 8%nat = 0%nat => O_S 7 (eq_sym H))
          (fun H : 1%nat = 0%nat => O_S 0 (eq_sym H)))).
Defined.
